(** * LinearClassifier notebook: a shallow embedding and its properties

    The notebook [torch/LinearClassifier.ipynb] builds a synthetic data set,
    wraps it in a shuffling batch loader, trains a one-layer linear model
    with a sigmoid output by Adam on the binary cross-entropy loss, and
    prints an accuracy.

    Conventions of the embedding.
    - A tensor entry is a real number: the host library computes in
      32-bit floating point, whose rounding, overflow and NaN are outside
      this model.  A 1-D tensor is a [list R], a 2-D tensor a list of rows.
      The forward pass on one sample is given a second time, [forward32],
      with its affine part in IEEE binary32 arithmetic, where NaN and
      overflow decide what it returns.
    - A Python exception is the [Raise] branch of [result]; the notebook has
      no [try], so every cell is a plain sequence of binds.
    - Every value the host library draws at random comes from a
      [RandomSource], so that a run is a function of that source.
    - Printed lines are kept as structured [line]s in a console list.
    - A tensor without rows does not record its number of columns, and
      the mean of an empty tensor (NaN in the library) has no meaning
      here; neither occurs in a run. *)

From Stdlib Require Import Reals Lra Lia List Arith Bool Permutation ZArith SpecFloat.
Import ListNotations.
Open Scope R_scope.

(** ** Exceptions *)

Inductive exn : Type :=
| IndexError
| AssertionError
| ValueError
| RuntimeError
| ZeroDivisionError.

Inductive result (A : Type) : Type :=
| Ok (a : A)
| Raise (e : exn).

Arguments Ok {A} a.
Arguments Raise {A} e.

Definition bind {A B : Type} (c : result A) (k : A -> result B) : result B :=
  match c with
  | Ok a => k a
  | Raise e => Raise e
  end.

Notation "x <- c ;; k" := (bind c (fun x => k))
  (at level 61, c at next level, right associativity).
Notation "' pat <- c ;; k" := (bind c (fun x => match x with pat => k end))
  (at level 61, pat pattern, c at next level, right associativity).

Fixpoint mapM {A B : Type} (f : A -> result B) (l : list A) : result (list B) :=
  match l with
  | [] => Ok []
  | a :: t => b <- f a ;; bs <- mapM f t ;; Ok (b :: bs)
  end.

Fixpoint zipWith {A B C : Type} (f : A -> B -> C) (a : list A) (b : list B)
  : list C :=
  match a, b with
  | x :: a', y :: b' => f x y :: zipWith f a' b'
  | _, _ => []
  end.

(** ** The tensor operations the notebook calls *)

Module Torch.

#[warnings="-notation-for-abbreviation"] Notation tensor1 := (list R) (only parsing).
#[warnings="-notation-for-abbreviation"] Notation tensor2 := (list (list R)) (only parsing).

(** [rows X cols] holds when [X] has the shape [(rows, cols)]. *)
Definition shape2 {A : Type} (rows cols : nat) (X : list (list A)) : Prop :=
  length X = rows /\ Forall (fun r => length r = cols) X.

Definition numel {A : Type} (X : list (list A)) : nat := length (concat X).

(** The tensor of shape [(rows, cols)] whose entries are read off a
    stream of draws in row-major order. *)
Definition from_draws (rows cols : nat) (draw : nat -> R) : tensor2 :=
  map (fun i => map (fun j => draw (i * cols + j)%nat) (seq 0 cols)) (seq 0 rows).

(** [torch.randn(rows, cols)] *)
Definition randn (rows cols : nat) (normal_draw : nat -> R) : tensor2 :=
  from_draws rows cols normal_draw.

(** [X[:, j]] *)
Definition select_col {A : Type} (j : nat) (X : list (list A)) : result (list A) :=
  mapM (fun row => match nth_error row j with
                   | Some v => Ok v
                   | None => Raise IndexError
                   end) X.

(** An elementwise binary operation on 1-D tensors, with the broadcasting
    of a dimension of size one. *)
Definition broadcast1 {A B : Type} (f : A -> A -> B) (a b : list A)
  : result (list B) :=
  if (length a =? length b)%nat then Ok (zipWith f a b)
  else match a, b with
       | [x], _ => Ok (map (f x) b)
       | _, [y] => Ok (map (fun v => f v y) a)
       | _, _ => Raise RuntimeError
       end.

Fixpoint zipWithM {A B C : Type} (f : A -> B -> result C) (a : list A)
  (b : list B) : result (list C) :=
  match a, b with
  | x :: a', y :: b' => c <- f x y ;; cs <- zipWithM f a' b' ;; Ok (c :: cs)
  | _, _ => Ok []
  end.

(** The same on 2-D tensors. *)
Definition broadcast2 {A B : Type} (f : A -> A -> B) (a b : list (list A))
  : result (list (list B)) :=
  if (length a =? length b)%nat then zipWithM (broadcast1 f) a b
  else match a, b with
       | [x], _ => mapM (fun r => broadcast1 f x r) b
       | _, [y] => mapM (fun r => broadcast1 f r y) a
       | _, _ => Raise RuntimeError
       end.

Definition Rgtb (a c : R) : bool := if Rgt_dec a c then true else false.
Definition Reqb (a c : R) : bool := if Req_dec_T a c then true else false.

(** [t > c] for a Python scalar [c] *)
Definition gt_scalar1 (t : tensor1) (c : R) : list bool :=
  map (fun a => Rgtb a c) t.
Definition gt_scalar2 (t : tensor2) (c : R) : list (list bool) :=
  map (fun r => gt_scalar1 r c) t.

(** [.float()] on a boolean tensor *)
Definition float_of_bool (b : bool) : R := if b then 1 else 0.
Definition float1 (t : list bool) : tensor1 := map float_of_bool t.
Definition float2 (t : list (list bool)) : tensor2 := map float1 t.

(** [.view(-1, 1)] on a 1-D tensor *)
Definition view_column {A : Type} (t : list A) : list (list A) :=
  map (fun a => [a]) t.

Definition sum1 (t : tensor1) : R := fold_left Rplus t 0.

(** [.mean()] over every entry of a 2-D tensor *)
Definition mean2 (t : tensor2) : R := sum1 (concat t) / INR (numel t).

Definition sigmoid (z : R) : R := 1 / (1 + exp (- z)).

End Torch.

Import Torch.

(** ** The random source *)

Record RandomSource : Type := {
  (** the k-th standard normal draw of [torch.randn] *)
  normal : nat -> R;
  (** the k-th value the initialiser of [nn.Linear] writes *)
  init_draw : nat -> R;
  (** the index order the shuffling sampler yields for the e-th pass
      over the loader *)
  randperm : nat -> list nat
}.

(** ** Cell 2: the model *)

(** [nn.Linear(input_dim, 1)] with the gradients autograd stores on its
    parameters, and the mode flag of [nn.Module]. *)
Record LinearClassifier : Type := {
  weight : tensor2;
  bias : tensor1;
  weight_grad : option tensor2;
  bias_grad : option tensor1;
  training : bool
}.

(** [LinearClassifier(input_dim)]: the weight has shape [(1, input_dim)],
    the bias shape [(1)]; the weight is initialised first. *)
Definition new_classifier (input_dim : nat) (draw : nat -> R) : LinearClassifier :=
  {| weight := from_draws 1 input_dim draw;
     bias := [draw input_dim];
     weight_grad := None;
     bias_grad := None;
     training := true |}.

Definition set_training (mode : bool) (m : LinearClassifier) : LinearClassifier :=
  {| weight := weight m; bias := bias m;
     weight_grad := weight_grad m; bias_grad := bias_grad m;
     training := mode |}.

Definition dot (x w : tensor1) : R := sum1 (zipWith Rmult x w).

(** [self.linear(x)]: one output per weight row; a row of [x] whose length
    differs from the weight's raises. *)
Definition linear_unit (row : tensor1) (wb : tensor1 * R) : result R :=
  if (length row =? length (fst wb))%nat then Ok (dot row (fst wb) + snd wb)
  else Raise RuntimeError.

Definition linear (m : LinearClassifier) (x : tensor2) : result tensor2 :=
  mapM (fun row => mapM (linear_unit row) (combine (weight m) (bias m))) x.

Definition forward (m : LinearClassifier) (x : tensor2) : result tensor2 :=
  z <- linear m x ;;
  Ok (map (map sigmoid) z).

(** *** The forward pass in binary32

    A float32 value is a [spec_float] of the standard library's IEEE
    specification, with 24 bits of precision and maximal exponent 128. *)

Definition mul32 : spec_float -> spec_float -> spec_float := SFmul 24 128.








(** ** Cell 3: the data *)

Definition n_samples : nat := 100.
Definition n_features : nat := 2.

Definition make_data (src : RandomSource) : result (tensor2 * tensor2) :=
  let X := randn n_samples n_features (normal src) in
  c0 <- select_col 0 X ;;
  c1 <- select_col 1 X ;;
  s <- broadcast1 Rplus c0 c1 ;;
  Ok (X, view_column (float1 (gt_scalar1 s 0))).

(** ** Cell 4: data set and loader *)

Definition batch_size : nat := 32.

(** [TensorDataset(X, y)] asserts that both tensors have as many rows. *)
Definition tensor_dataset (xs ys : tensor2) : result (tensor2 * tensor2) :=
  if (length xs =? length ys)%nat then Ok (xs, ys) else Raise AssertionError.

(** [torch.randperm(n)], which the random sampler calls once per pass:
    the list starts as 0, 1, ..., n-1, and for i = 0, ..., n-2 the entry at
    position i is exchanged with the entry at position [z + i], where
    [z = r_i mod (n - i)] and [r_i] is the i-th integer the generator
    returns. *)

(** [r[i] = v] *)
Fixpoint update (r : list nat) (i v : nat) : list nat :=
  match r, i with
  | [], _ => []
  | _ :: r', O => v :: r'
  | a :: r', S i' => a :: update r' i' v
  end.

(** [sav = r[i]; r[i] = r[j]; r[j] = sav] *)
Definition exchange (r : list nat) (i j : nat) : list nat :=
  let sav := nth i r 0%nat in
  let r := update r i (nth j r 0%nat) in
  update r j sav.

Fixpoint shuffle (raw : nat -> nat) (n i steps : nat) (r : list nat) : list nat :=
  match steps with
  | O => r
  | S steps' => shuffle raw n (S i) steps' (exchange r i (raw i mod (n - i) + i))
  end.

Definition torch_randperm (n : nat) (raw : nat -> nat) : list nat :=
  shuffle raw n 0 (n - 1) (seq 0 n).

(** The batch sampler: indices are appended to the current batch, which
    is yielded when full; a last partial batch is yielded too. *)
Fixpoint batch_sampler (bs : nat) (indices : list nat) (batch : list nat)
  : list (list nat) :=
  match indices with
  | [] => match batch with [] => [] | _ => [batch] end
  | i :: rest =>
      let batch' := batch ++ [i] in
      if (length batch' =? bs)%nat then batch' :: batch_sampler bs rest []
      else batch_sampler bs rest batch'
  end.

(** [DataLoader(dataset, batch_size=32, shuffle=True)]: the random sampler
    the loader builds refuses a data set without samples. *)
Definition dataloader (dataset : tensor2 * tensor2) : result (tensor2 * tensor2) :=
  if (length (fst dataset) =? 0)%nat then Raise ValueError else Ok dataset.

(** [len(dataloader)], for the loader of a data set of [n] samples. *)
Definition len_dataloader (n : nat) : nat := ((n + batch_size - 1) / batch_size)%nat.

(** Fetching one batch: [dataset[i]] for every index, then the samples are
    stacked; stacking reads the first sample, which a batch without
    indices does not have. *)
Definition fetch (xs ys : tensor2) (idx : list nat) : result (tensor2 * tensor2) :=
  samples <- mapM (fun i => match nth_error xs i, nth_error ys i with
                            | Some r, Some l => Ok (r, l)
                            | _, _ => Raise IndexError
                            end) idx ;;
  match samples with
  | [] => Raise IndexError
  | _ :: _ => Ok (map fst samples, map snd samples)
  end.

(** ** Cell 5: loss and optimizer *)

Definition same_shape (a b : tensor2) : bool :=
  (length a =? length b)%nat
  && forallb (fun rs => (length (fst rs) =? length (snd rs))%nat) (combine a b).

Definition in_unit (p : R) : bool :=
  if Rle_dec 0 p then (if Rle_dec p 1 then true else false) else false.

(** The logarithm as [nn.BCELoss] takes it: never below -100. *)
Definition clamped_log (p : R) : R :=
  if Rle_dec p 0 then -100 else Rmax (ln p) (-100).

Definition bce_term (p t : R) : R :=
  - (t * clamped_log p + (1 - t) * clamped_log (1 - p)).

(** [criterion(outputs, labels)], reduction "mean" *)
Definition criterion (input target : tensor2) : result R :=
  if negb (same_shape input target) then Raise ValueError
  else if negb (forallb in_unit (concat input)) then Raise RuntimeError
  else Ok (mean2 (zipWith (zipWith bce_term) input target)).

(** The gradient of the mean loss with respect to one pre-activation:
    the backward rule of the loss, then that of the sigmoid. *)
Definition grad_preactivation (n : nat) (p t : R) : R :=
  ((p - t) / Rmax ((1 - p) * p) 1e-12 * / INR n) * ((1 - p) * p).

Definition outer (d x : tensor1) : tensor2 :=
  map (fun dk => map (fun xj => dk * xj) x) d.

Definition add1 : tensor1 -> tensor1 -> tensor1 := zipWith Rplus.
Definition add2 : tensor2 -> tensor2 -> tensor2 := zipWith add1.
Definition zeros_like1 (t : tensor1) : tensor1 := map (fun _ => 0) t.
Definition zeros_like2 (t : tensor2) : tensor2 := map zeros_like1 t.

(** A gradient is added to the one already stored, if any. *)
Definition accumulate {T : Type} (add : T -> T -> T) (old : option T) (g : T)
  : option T :=
  match old with
  | None => Some g
  | Some g0 => Some (add g0 g)
  end.

Definition zero_grad (m : LinearClassifier) : LinearClassifier :=
  {| weight := weight m; bias := bias m;
     weight_grad := None; bias_grad := None;
     training := training m |}.

(** [loss.backward()] for the loss of [outputs = forward m inputs]
    against [labels]. *)
Definition backward (m : LinearClassifier) (inputs outputs labels : tensor2)
  : LinearClassifier :=
  let dz := zipWith (zipWith (grad_preactivation (numel outputs))) outputs labels in
  let gw := fold_left (fun G dx => add2 G (outer (fst dx) (snd dx)))
                      (combine dz inputs) (zeros_like2 (weight m)) in
  let gb := fold_left add1 dz (zeros_like1 (bias m)) in
  {| weight := weight m; bias := bias m;
     weight_grad := accumulate add2 (weight_grad m) gw;
     bias_grad := accumulate add1 (bias_grad m) gb;
     training := training m |}.

(** [optim.Adam(model.parameters(), lr=0.01)] with the library's defaults. *)
Definition lr : R := 0.01.
Definition beta1 : R := 0.9.
Definition beta2 : R := 0.999.
Definition eps : R := 1e-8.

Record ParamState (T : Type) : Type := {
  step : nat;
  exp_avg : T;
  exp_avg_sq : T
}.
Arguments step {T} _.
Arguments exp_avg {T} _.
Arguments exp_avg_sq {T} _.

(** The optimizer's state per parameter.  The library creates it on the
    first step (zeros, step 0); here it is there from the start. *)
Record Adam : Type := {
  weight_state : ParamState tensor2;
  bias_state : ParamState tensor1
}.

Definition new_adam (m : LinearClassifier) : Adam :=
  {| weight_state := {| step := 0; exp_avg := zeros_like2 (weight m);
                        exp_avg_sq := zeros_like2 (weight m) |};
     bias_state := {| step := 0; exp_avg := zeros_like1 (bias m);
                      exp_avg_sq := zeros_like1 (bias m) |} |}.

Definition adam_avg (m g : R) : R := beta1 * m + (1 - beta1) * g.
Definition adam_avg_sq (v g : R) : R := beta2 * v + (1 - beta2) * (g * g).

Definition adam_update (t : nat) (p : R) (mv : R * R) : R :=
  let bias_correction1 := 1 - beta1 ^ t in
  let bias_correction2 := 1 - beta2 ^ t in
  let step_size := lr / bias_correction1 in
  let denom := sqrt (snd mv) / sqrt bias_correction2 + eps in
  p - step_size * (fst mv / denom).

Definition adam_param1 (p g : tensor1) (s : ParamState tensor1)
  : tensor1 * ParamState tensor1 :=
  let t := S (step s) in
  let m := zipWith adam_avg (exp_avg s) g in
  let v := zipWith adam_avg_sq (exp_avg_sq s) g in
  (zipWith (adam_update t) p (combine m v),
   {| step := t; exp_avg := m; exp_avg_sq := v |}).

Definition adam_param2 (p g : tensor2) (s : ParamState tensor2)
  : tensor2 * ParamState tensor2 :=
  let t := S (step s) in
  let m := zipWith (zipWith adam_avg) (exp_avg s) g in
  let v := zipWith (zipWith adam_avg_sq) (exp_avg_sq s) g in
  (zipWith (fun pr mvr => zipWith (adam_update t) pr (combine (fst mvr) (snd mvr)))
           p (combine m v),
   {| step := t; exp_avg := m; exp_avg_sq := v |}).

(** [optimizer.step()]: a parameter without a gradient is skipped. *)
Definition adam_step (m : LinearClassifier) (o : Adam) : LinearClassifier * Adam :=
  let (w, sw) := match weight_grad m with
                 | Some g => adam_param2 (weight m) g (weight_state o)
                 | None => (weight m, weight_state o)
                 end in
  let (b, sb) := match bias_grad m with
                 | Some g => adam_param1 (bias m) g (bias_state o)
                 | None => (bias m, bias_state o)
                 end in
  ({| weight := w; bias := b;
      weight_grad := weight_grad m; bias_grad := bias_grad m;
      training := training m |},
   {| weight_state := sw; bias_state := sb |}).

(** ** The notebook's state and output *)

Inductive line : Type :=
| LossLine (epoch epochs : nat) (loss : R)
| AccuracyLine (accuracy : R).

(** The global variables later cells read, and the console.  The names
    the loops leave behind ([epoch], [inputs], [labels], [outputs],
    [loss], [running_loss]) are not kept. *)
Record Env : Type := {
  X : tensor2;
  y : tensor2;
  model : LinearClassifier;
  optimizer : Adam;
  predicted : option tensor2;
  accuracy : option R;
  console : list line
}.

Definition with_model (env : Env) (m : LinearClassifier) (o : Adam) : Env :=
  {| X := X env; y := y env; model := m; optimizer := o;
     predicted := predicted env; accuracy := accuracy env;
     console := console env |}.

Definition print (l : line) (env : Env) : Env :=
  {| X := X env; y := y env; model := model env; optimizer := optimizer env;
     predicted := predicted env; accuracy := accuracy env;
     console := console env ++ [l] |}.

(** Cells 3 to 5. *)
Definition setup (src : RandomSource) : result Env :=
  ' (xs, ys) <- make_data src ;;
  dataset <- tensor_dataset xs ys ;;
  ' (xs, ys) <- dataloader dataset ;;
  let m := new_classifier n_features (init_draw src) in
  Ok {| X := xs; y := ys; model := m; optimizer := new_adam m;
        predicted := None; accuracy := None; console := [] |}.

(** ** Cell 6: training *)

Definition epochs : nat := 100.

(** The body of the inner loop; returns [loss.item()] as well. *)
Definition train_batch (inputs labels : tensor2) (m : LinearClassifier) (o : Adam)
  : result (LinearClassifier * Adam * R) :=
  outputs <- forward m inputs ;;
  loss <- criterion outputs labels ;;
  let m := zero_grad m in
  let m := backward m inputs outputs labels in
  let (m, o) := adam_step m o in
  Ok (m, o, loss).

Fixpoint batch_loop (batches : list (list nat)) (env : Env) (running_loss : R)
  : result (Env * R) :=
  match batches with
  | [] => Ok (env, running_loss)
  | idx :: rest =>
      ' (inputs, labels) <- fetch (X env) (y env) idx ;;
      ' (m, o, loss) <- train_batch inputs labels (model env) (optimizer env) ;;
      batch_loop rest (with_model env m o) (running_loss + loss)
  end.

Definition epoch_body (src : RandomSource) (epoch : nat) (env : Env) : result Env :=
  let env := with_model env (set_training true (model env)) (optimizer env) in
  ' (env, running_loss) <-
      batch_loop (batch_sampler batch_size (randperm src epoch) []) env 0 ;;
  if ((epoch + 1) mod 10 =? 0)%nat
  then
    let batches := len_dataloader (length (X env)) in
    if (batches =? 0)%nat then Raise ZeroDivisionError
    else Ok (print (LossLine (epoch + 1) epochs (running_loss / INR batches)) env)
  else Ok env.

(** [for epoch in range(...)] *)
Fixpoint for_epochs (src : RandomSource) (range : list nat) (env : Env)
  : result Env :=
  match range with
  | [] => Ok env
  | epoch :: rest => env <- epoch_body src epoch env ;; for_epochs src rest env
  end.

Definition train (src : RandomSource) (env : Env) : result Env :=
  for_epochs src (seq 0 epochs) env.

(** ** Cell 7: evaluation *)

Definition evaluate (env : Env) : result Env :=
  let m := set_training false (model env) in
  outputs <- forward m (X env) ;;
  let pred := float2 (gt_scalar2 outputs 0.5) in
  hits <- broadcast2 Reqb pred (y env) ;;
  let acc := mean2 (float2 hits) in
  Ok {| X := X env; y := y env; model := m; optimizer := optimizer env;
        predicted := Some pred; accuracy := Some acc;
        console := console env ++ [AccuracyLine acc] |}.

(** ** The whole notebook *)

Definition notebook (src : RandomSource) : result Env :=
  env <- setup src ;;
  env <- train src env ;;
  evaluate env.

(** The pre-activation of the model with weight [[w0; w1]] and bias [b]
    on one row. *)
Definition logit (w0 w1 b : R) (row : list R) : R := dot row [w0; w1] + b.

(** ** Well-formed states *)

Definition params_shape (m : LinearClassifier) : Prop :=
  shape2 1 n_features (weight m) /\ length (bias m) = 1%nat.

Definition adam_shape (o : Adam) : Prop :=
  shape2 1 n_features (exp_avg (weight_state o))
  /\ shape2 1 n_features (exp_avg_sq (weight_state o))
  /\ length (exp_avg (bias_state o)) = 1%nat
  /\ length (exp_avg_sq (bias_state o)) = 1%nat.

Definition data_shape (env : Env) : Prop :=
  shape2 n_samples n_features (X env) /\ shape2 n_samples 1 (y env).

Definition well_formed (env : Env) : Prop :=
  data_shape env /\ params_shape (model env) /\ adam_shape (optimizer env).

(** What the shuffling sampler promises: each pass is over a permutation
    of the sample indices. *)
Definition valid_source (src : RandomSource) : Prop :=
  forall e, (e < epochs)%nat -> Permutation (randperm src e) (seq 0 n_samples).

(** The data and the variables of the evaluation cell are the same. *)
Definition same_globals (env env' : Env) : Prop :=
  X env' = X env /\ y env' = y env
  /\ predicted env' = predicted env /\ accuracy env' = accuracy env.

Definition mean1 (l : list R) : R := sum1 l / INR (length l).

(** What one pass over the batches computes, in order: for each batch the
    value of [loss.item()] and the per-sample loss terms of the batch.
    Used in statements only. *)
Fixpoint batch_trace (batches : list (list nat)) (env : Env)
  : result (list (R * list R)) :=
  match batches with
  | [] => Ok []
  | idx :: rest =>
      ' (inputs, labels) <- fetch (X env) (y env) idx ;;
      outputs <- forward (model env) inputs ;;
      ' (m, o, loss) <- train_batch inputs labels (model env) (optimizer env) ;;
      tr <- batch_trace rest (with_model env m o) ;;
      Ok ((loss, concat (zipWith (zipWith bce_term) outputs labels)) :: tr)
  end.

(** Each recorded loss is the mean of the recorded terms. *)
Definition mean_of_terms (tr : list (R * list R)) : Prop :=
  Forall (fun lt => fst lt = mean1 (snd lt)) tr.

Definition term_counts (tr : list (R * list R)) : list nat :=
  map (fun lt => length (snd lt)) tr.

(** The test [(epoch+1) % 10 == 0] of the training loop. *)
Definition prints (epoch : nat) : bool := ((epoch + 1) mod 10 =? 0)%nat.

Definition loss_lines (range : list nat) (values : list R) : list line :=
  zipWith (fun e l => LossLine (e + 1) epochs l) (filter prints range) values.

(** The number of rows on which two tensors agree. *)
Definition matches (pred labels : tensor2) : nat :=
  length (filter (fun pt => if list_eq_dec Req_dec_T (fst pt) (snd pt)
                            then true else false)
                 (combine pred labels)).

(** The state at the end of the training cell. *)
Definition trained (src : RandomSource) : result Env :=
  env <- setup src ;; train src env.

(** A source for examples: every normal draw is 1, every initial
    parameter 0, and the sampler never shuffles. *)
Definition plain_source : RandomSource :=
  {| normal := fun _ => 1; init_draw := fun _ => 0;
     randperm := fun _ => seq 0 n_samples |}.

(** A state for examples: a hundred samples [(1, 1)] labelled 1 and a
    fresh model with zero parameters. *)
Definition plain_env : Env :=
  let m := new_classifier n_features (fun _ => 0) in
  {| X := repeat [1; 1] n_samples; y := repeat [1] n_samples;
     model := m; optimizer := new_adam m;
     predicted := None; accuracy := None; console := [] |}.

(** A source whose sampler yields an index outside the data set. *)
Definition stray_source : RandomSource :=
  {| normal := fun _ => 1; init_draw := fun _ => 0;
     randperm := fun _ => [n_samples] |}.

(** The model and optimizer states met in the run on [plain_source]:
    [z] is the pre-activation of the sample [(1, 1)], and no first-moment
    estimate is positive. *)
Definition descending (z : R) (m : LinearClassifier) (o : Adam) : Prop :=
  exists w0 w1 b mw0 mw1 mb vw0 vw1 vb,
    weight m = [[w0; w1]] /\ bias m = [b]
    /\ exp_avg (weight_state o) = [[mw0; mw1]]
    /\ exp_avg_sq (weight_state o) = [[vw0; vw1]]
    /\ exp_avg (bias_state o) = [mb]
    /\ exp_avg_sq (bias_state o) = [vb]
    /\ z = w0 + w1 + b
    /\ mw0 <= 0 /\ mw1 <= 0 /\ mb <= 0.

(** [u > l1 > l2 > ...] *)
Fixpoint strictly_below (u : R) (ls : list R) : Prop :=
  match ls with
  | [] => True
  | l :: rest => l < u /\ strictly_below l rest
  end.

(** The states of the run on [plain_source]: every sample is [(1, 1)]
    with label 1, and the model is in a [descending] state with a
    non-negative pre-activation. *)
Definition plain_state (env : Env) : Prop :=
  shape2 n_samples n_features (X env) /\ shape2 n_samples 1 (y env)
  /\ Forall (eq [1; 1]) (X env) /\ Forall (eq [1]) (y env)
  /\ exists z, 0 <= z /\ descending z (model env) (optimizer env).


Definition f32_two : spec_float := S754_finite false 8388608 (-22).
Definition f32_3e38 : spec_float := S754_finite false 14791142 104.

(** One run of the loop body on the batch [b], from the model [m] and the
    optimizer [o]: the samples fetched are the rows of [X] and [y] at the
    indices of [b], in order; the forward pass and the loss [l], the mean
    of the loss terms of these samples, are computed on them; the
    gradients are zeroed, then computed from this batch, and the optimizer
    takes one step, which leaves the model [m'] and the optimizer [o']. *)
Definition body_on_batch (env : Env) (b : list nat) (m : LinearClassifier) (o : Adam)
  (m' : LinearClassifier) (o' : Adam) (l : R) : Prop :=
  exists inputs labels outputs,
    fetch (X env) (y env) b = Ok (inputs, labels)
    /\ Forall2 (fun i r => nth_error (X env) i = Some r) b inputs
    /\ Forall2 (fun i r => nth_error (y env) i = Some r) b labels
    /\ train_batch inputs labels m o = Ok (m', o', l)
    /\ forward m inputs = Ok outputs
    /\ criterion outputs labels = Ok l
    /\ l = mean2 (zipWith (zipWith bce_term) outputs labels)
    /\ adam_step (backward (zero_grad m) inputs outputs labels) o = (m', o')
    /\ step (weight_state o') = S (step (weight_state o))
    /\ step (bias_state o') = S (step (bias_state o)).

(** ** Definitions for the further properties *)

Definition is_loss_line (l : line) : Prop :=
  match l with
  | LossLine _ _ _ => True
  | AccuracyLine _ => False
  end.

(** A model that differs from [m] only in the gradients it holds. *)
Definition with_grads (m : LinearClassifier) (gw : option (list (list R)))
  (gb : option (list R)) : LinearClassifier :=
  {| weight := weight m; bias := bias m;
     weight_grad := gw; bias_grad := gb; training := training m |}.

(** Every label is 0 or 1. *)
Definition binary_labels (ys : list (list R)) : Prop :=
  Forall (fun r => r = [0] \/ r = [1]) ys.

(** The value a printed line carries is in the range of its kind. *)
Definition line_in_range (l : line) : Prop :=
  match l with
  | LossLine _ _ v => 0 <= v <= 100
  | AccuracyLine a => 0 <= a <= 1
  end.

(** ** Generic facts on the exception monad and on lists *)

Ltac splits := repeat match goal with |- _ /\ _ => split end.

Lemma bind_ok {A B : Type} (c : result A) (k : A -> result B) (b : B) :
  bind c k = Ok b -> exists a, c = Ok a /\ k a = Ok b.
Proof. destruct c as [a|e]; simpl; intros H; [exists a; auto | discriminate]. Qed.

Lemma bind_ret {A B : Type} (a : A) (k : A -> result B) : bind (Ok a) k = k a.
Proof. reflexivity. Qed.

Lemma mapM_pure {A B : Type} (f : A -> result B) (g : A -> B) (l : list A) :
  (forall a, In a l -> f a = Ok (g a)) -> mapM f l = Ok (map g l).
Proof.
  induction l as [|a t IH]; intros H; simpl; [reflexivity|].
  rewrite (H a) by (left; reflexivity). simpl.
  rewrite IH by (intros; apply H; right; assumption). reflexivity.
Qed.

Lemma zipWith_length {A B C : Type} (f : A -> B -> C) (a : list A) (b : list B) :
  length (zipWith f a b) = Nat.min (length a) (length b).
Proof.
  revert b; induction a as [|x a IH]; intros [|y b]; simpl; auto.
Qed.

Lemma zipWith_map {A B C D : Type} (f : A -> B -> C) (g : D -> A) (h : D -> B)
  (l : list D) : zipWith f (map g l) (map h l) = map (fun d => f (g d) (h d)) l.
Proof. induction l; simpl; congruence. Qed.

Lemma Forall_repeat {A : Type} (P : A -> Prop) (a : A) (n : nat) :
  P a -> Forall P (repeat a n).
Proof. intros H; induction n; simpl; constructor; auto. Qed.

(** ** Shapes *)

Lemma from_draws_shape (rows cols : nat) (d : nat -> R) :
  shape2 rows cols (from_draws rows cols d).
Proof.
  unfold shape2, from_draws; split.
  - now rewrite length_map, length_seq.
  - apply Forall_forall; intros r Hr. apply in_map_iff in Hr.
    destruct Hr as [i [<- _]]. now rewrite length_map, length_seq.
Qed.

Lemma from_draws_nth_error (rows cols : nat) (d : nat -> R) (i : nat) :
  (i < rows)%nat ->
  nth_error (from_draws rows cols d) i
  = Some (map (fun j => d (i * cols + j)%nat) (seq 0 cols)).
Proof.
  intros Hi. unfold from_draws.
  rewrite nth_error_map, nth_error_seq.
  destruct (Nat.ltb_spec i rows); [reflexivity | lia].
Qed.

Lemma select_col_from_draws (rows cols j : nat) (d : nat -> R) :
  (j < cols)%nat ->
  select_col j (from_draws rows cols d)
  = Ok (map (fun i => d (i * cols + j)%nat) (seq 0 rows)).
Proof.
  intros Hj. unfold select_col, from_draws.
  rewrite (mapM_pure _ (fun row => nth j row 0)).
  - rewrite map_map. apply f_equal, map_ext. intros i.
    apply nth_error_nth. rewrite nth_error_map, nth_error_seq.
    destruct (Nat.ltb_spec j cols); [reflexivity | lia].
  - intros row Hr. apply in_map_iff in Hr. destruct Hr as [i [<- _]].
    destruct (nth_error _ j) as [v|] eqn:E.
    + now rewrite (nth_error_nth _ _ _ E).
    + apply nth_error_None in E. rewrite length_map, length_seq in E. lia.
Qed.

Lemma make_data_eq (src : RandomSource) :
  make_data src
  = Ok (from_draws n_samples n_features (normal src),
        map (fun i => [float_of_bool
                         (Rgtb (normal src (i * 2 + 0)%nat + normal src (i * 2 + 1)%nat) 0)])
            (seq 0 n_samples)).
Proof.
  unfold make_data, randn. cbv zeta.
  rewrite !select_col_from_draws by (unfold n_features; lia). rewrite !bind_ret.
  unfold broadcast1. rewrite !length_map, Nat.eqb_refl, bind_ret.
  rewrite zipWith_map. unfold view_column, float1, gt_scalar1.
  rewrite !map_map. reflexivity.
Qed.

Lemma dataset_labels_shape (src : RandomSource) :
  exists xs ys,
    make_data src = Ok (xs, ys)
    /\ shape2 n_samples n_features xs /\ shape2 n_samples 1 ys.
Proof.
  eexists _, _. split; [apply make_data_eq|].
  split; [apply from_draws_shape|].
  split; [now rewrite length_map, length_seq|].
  apply Forall_forall; intros r Hr. apply in_map_iff in Hr.
  now destruct Hr as [i [<- _]].
Qed.
(** ** The linear layer and the loss on well-shaped arguments *)

Lemma shape_1x2 (W : tensor2) : shape2 1 n_features W <-> exists a b, W = [[a; b]].
Proof.
  unfold shape2, n_features; split.
  - intros [HL HF]. destruct W as [|r [|? ?]]; try discriminate.
    inversion HF as [|? ? Hr _]; subst.
    destruct r as [|a [|b [|? ?]]]; try discriminate. now exists a, b.
  - intros [a [b ->]]. split; [reflexivity | repeat constructor].
Qed.

Lemma shape_1x2_intro (a b : R) : shape2 1 n_features [[a; b]].
Proof. split; [reflexivity | repeat constructor]. Qed.

Lemma length_1 {A : Type} (v : list A) : length v = 1%nat <-> exists a, v = [a].
Proof.
  split.
  - destruct v as [|a [|? ?]]; try discriminate. now exists a.
  - now intros [a ->].
Qed.

Lemma length_2 {A : Type} (v : list A) : length v = 2%nat <-> exists a b, v = [a; b].
Proof.
  split.
  - destruct v as [|a [|b [|? ?]]]; try discriminate. now exists a, b.
  - now intros [a [b ->]].
Qed.

Lemma sigmoid_range (z : R) : 0 < sigmoid z < 1.
Proof.
  unfold sigmoid. pose proof (exp_pos (- z)) as He.
  split.
  - apply Rdiv_lt_0_compat; lra.
  - apply Rmult_lt_reg_r with (1 + exp (- z)); [lra|].
    unfold Rdiv. rewrite Rmult_assoc, Rinv_l by lra. lra.
Qed.

Lemma in_unit_sigmoid (z : R) : in_unit (sigmoid z) = true.
Proof.
  pose proof (sigmoid_range z). unfold in_unit.
  destruct (Rle_dec 0 (sigmoid z)); [|lra].
  destruct (Rle_dec (sigmoid z) 1); [reflexivity|lra].
Qed.

Lemma linear_eq (m : LinearClassifier) (w0 w1 b : R) (x : tensor2) :
  weight m = [[w0; w1]] -> bias m = [b] ->
  Forall (fun r => length r = 2%nat) x ->
  linear m x = Ok (map (fun row => [logit w0 w1 b row]) x).
Proof.
  intros Hw Hb Hx. unfold linear. rewrite Hw, Hb. simpl combine.
  apply mapM_pure. intros row Hr.
  rewrite Forall_forall in Hx. specialize (Hx row Hr).
  simpl. unfold linear_unit. simpl fst. simpl snd. rewrite Hx. reflexivity.
Qed.

Lemma forward_eq (m : LinearClassifier) (w0 w1 b : R) (x : tensor2) :
  weight m = [[w0; w1]] -> bias m = [b] ->
  Forall (fun r => length r = 2%nat) x ->
  forward m x = Ok (map (fun row => [sigmoid (logit w0 w1 b row)]) x).
Proof.
  intros Hw Hb Hx. unfold forward. rewrite (linear_eq m w0 w1 b) by assumption.
  rewrite bind_ret, map_map. reflexivity.
Qed.

Lemma same_shape_columns (f : tensor1 -> R) (x labels : tensor2) :
  length x = length labels ->
  Forall (fun r => length r = 1%nat) labels ->
  same_shape (map (fun row => [f row]) x) labels = true.
Proof.
  intros HL HF. unfold same_shape. rewrite length_map, HL, Nat.eqb_refl. simpl.
  apply forallb_forall. intros [r s] Hin. simpl.
  pose proof (in_combine_l _ _ _ _ Hin) as H1.
  pose proof (in_combine_r _ _ _ _ Hin) as H2.
  apply in_map_iff in H1. destruct H1 as [row [<- _]].
  rewrite Forall_forall in HF. rewrite (HF s H2). reflexivity.
Qed.

Lemma criterion_eq (f : tensor1 -> R) (x labels : tensor2) :
  length x = length labels ->
  Forall (fun r => length r = 1%nat) labels ->
  criterion (map (fun row => [sigmoid (f row)]) x) labels
  = Ok (mean2 (zipWith (zipWith bce_term) (map (fun row => [sigmoid (f row)]) x) labels)).
Proof.
  intros HL HF. unfold criterion.
  rewrite (same_shape_columns (fun row => sigmoid (f row))) by assumption. simpl negb.
  replace (forallb in_unit _) with true; [reflexivity|].
  symmetry. apply forallb_forall. intros p Hp.
  apply in_concat in Hp. destruct Hp as [r [Hr Hp]].
  apply in_map_iff in Hr. destruct Hr as [row [<- _]].
  destruct Hp as [<-|[]]. apply in_unit_sigmoid.
Qed.

(** ** Gradients and the optimizer step keep the shapes *)

Lemma grad_weight_shape (dz inputs G : tensor2) :
  Forall (fun r => length r = 1%nat) dz ->
  Forall (fun r => length r = 2%nat) inputs ->
  shape2 1 n_features G ->
  shape2 1 n_features
    (fold_left (fun G dx => add2 G (outer (fst dx) (snd dx))) (combine dz inputs) G).
Proof.
  intros Hdz; revert inputs G.
  induction Hdz as [|d dz Hd _ IH]; intros inputs G Hin HG; [assumption|].
  destruct Hin as [|x inputs Hx Hin]; [assumption|]. simpl.
  apply IH; [assumption|].
  apply shape_1x2 in HG. destruct HG as [a [b ->]].
  apply length_1 in Hd. destruct Hd as [d0 ->].
  apply length_2 in Hx. destruct Hx as [x0 [x1 ->]].
  apply shape_1x2_intro.
Qed.

Lemma grad_bias_shape (dz : tensor2) (g : tensor1) :
  Forall (fun r => length r = 1%nat) dz ->
  length g = 1%nat -> length (fold_left add1 dz g) = 1%nat.
Proof.
  intros Hdz; revert g. induction Hdz as [|d dz Hd _ IH]; intros g Hg; [assumption|].
  simpl. apply IH. unfold add1. rewrite zipWith_length, Hg, Hd. reflexivity.
Qed.

Lemma dz_columns (n : nat) (f : tensor1 -> R) (x labels : tensor2) :
  Forall (fun r => length r = 1%nat) labels ->
  Forall (fun r => length r = 1%nat)
    (zipWith (zipWith (grad_preactivation n)) (map (fun row => [f row]) x) labels).
Proof.
  intros HF; revert x. induction HF as [|l labels Hl _ IH]; intros [|r x]; simpl;
    constructor; auto.
  apply length_1 in Hl. destruct Hl as [t ->]. reflexivity.
Qed.

Lemma adam_param2_shape (p g : tensor2) (s : ParamState tensor2) :
  shape2 1 n_features p -> shape2 1 n_features g ->
  shape2 1 n_features (exp_avg s) -> shape2 1 n_features (exp_avg_sq s) ->
  shape2 1 n_features (fst (adam_param2 p g s))
  /\ shape2 1 n_features (exp_avg (snd (adam_param2 p g s)))
  /\ shape2 1 n_features (exp_avg_sq (snd (adam_param2 p g s)))
  /\ step (snd (adam_param2 p g s)) = S (step s).
Proof.
  intros Hp Hg Hm Hv. apply shape_1x2 in Hp, Hg, Hm, Hv.
  destruct Hp as [p0 [p1 ->]]. destruct Hg as [g0 [g1 ->]].
  destruct Hm as [m0 [m1 Hm]]. destruct Hv as [v0 [v1 Hv]].
  unfold adam_param2. rewrite Hm, Hv.
  cbn [fst snd exp_avg exp_avg_sq step zipWith combine].
  split; [|split; [|split]]; try reflexivity; apply shape_1x2_intro.
Qed.

Lemma adam_param1_shape (p g : tensor1) (s : ParamState tensor1) :
  length p = 1%nat -> length g = 1%nat ->
  length (exp_avg s) = 1%nat -> length (exp_avg_sq s) = 1%nat ->
  length (fst (adam_param1 p g s)) = 1%nat
  /\ length (exp_avg (snd (adam_param1 p g s))) = 1%nat
  /\ length (exp_avg_sq (snd (adam_param1 p g s))) = 1%nat
  /\ step (snd (adam_param1 p g s)) = S (step s).
Proof.
  intros Hp Hg Hm Hv. apply length_1 in Hp, Hg, Hm, Hv.
  destruct Hp as [p0 ->]. destruct Hg as [g0 ->].
  destruct Hm as [m0 Hm]. destruct Hv as [v0 Hv].
  unfold adam_param1. rewrite Hm, Hv. simpl. auto.
Qed.

(** One pass of the loop body on a well-shaped batch. *)
Lemma train_batch_ok (inputs labels : tensor2) (m : LinearClassifier) (o : Adam) :
  params_shape m -> adam_shape o ->
  Forall (fun r => length r = 2%nat) inputs ->
  Forall (fun r => length r = 1%nat) labels ->
  length inputs = length labels ->
  exists m' o' outputs,
    forward m inputs = Ok outputs
    /\ train_batch inputs labels m o
       = Ok (m', o', mean2 (zipWith (zipWith bce_term) outputs labels))
    /\ params_shape m' /\ adam_shape o'
    /\ training m' = training m
    /\ step (weight_state o') = S (step (weight_state o))
    /\ step (bias_state o') = S (step (bias_state o)).
Proof.
  intros [Hw Hb] (Hmw & Hvw & Hmb & Hvb) Hin Hlab Hlen.
  pose proof Hw as Hw'. apply shape_1x2 in Hw'. destruct Hw' as [w0 [w1 Ew]].
  pose proof Hb as Hb'. apply length_1 in Hb'. destruct Hb' as [b Eb].
  unfold train_batch.
  rewrite (forward_eq m w0 w1 b) by assumption. rewrite bind_ret.
  rewrite (criterion_eq (logit w0 w1 b)) by assumption. rewrite bind_ret.
  set (outputs := map (fun row => [sigmoid (logit w0 w1 b row)]) inputs).
  set (mb := backward (zero_grad m) inputs outputs labels).
  assert (Hgw : exists gw, weight_grad mb = Some gw /\ shape2 1 n_features gw).
  { eexists; split; [reflexivity|]. apply grad_weight_shape; try assumption.
    - apply dz_columns; assumption.
    - simpl. rewrite Ew. apply shape_1x2_intro. }
  assert (Hgb : exists gb, bias_grad mb = Some gb /\ length gb = 1%nat).
  { eexists; split; [reflexivity|]. apply grad_bias_shape.
    - apply dz_columns; assumption.
    - simpl. rewrite Eb. reflexivity. }
  destruct Hgw as [gw [Egw Sgw]]. destruct Hgb as [gb [Egb Sgb]].
  assert (Ewb : weight mb = weight m) by reflexivity.
  assert (Ebb : bias mb = bias m) by reflexivity.
  assert (Etb : training mb = training m) by reflexivity.
  clearbody mb. unfold adam_step. rewrite Egw, Egb, Ewb, Ebb, Etb.
  destruct (adam_param2_shape (weight m) gw (weight_state o)) as (A1 & A2 & A3 & A4);
    try assumption.
  destruct (adam_param1_shape (bias m) gb (bias_state o)) as (B1 & B2 & B3 & B4);
    try assumption.
  destruct (adam_param2 (weight m) gw (weight_state o)) as [w' sw].
  destruct (adam_param1 (bias m) gb (bias_state o)) as [b' sb].
  simpl in *.
  eexists _, _, outputs. split; [reflexivity|]. split; [reflexivity|].
  unfold params_shape, adam_shape. simpl. tauto.
Qed.

(** ** The batch sampler *)

Section BatchSampler.

Variable bs : nat.

Lemma batch_sampler_concat (l cur : list nat) :
  concat (batch_sampler bs l cur) = cur ++ l.
Proof.
  revert cur. induction l as [|i l IH]; intros cur; simpl.
  - destruct cur; simpl; now rewrite ?app_nil_r.
  - destruct (_ =? bs)%nat; simpl; rewrite IH; now rewrite <- ?app_assoc.
Qed.

Lemma batch_sampler_fill (l1 rest cur : list nat) :
  l1 <> [] -> (length cur + length l1 = bs)%nat ->
  batch_sampler bs (l1 ++ rest) cur = (cur ++ l1) :: batch_sampler bs rest [].
Proof.
  revert cur. induction l1 as [|i t IH]; intros cur Hne Hlen; [congruence|].
  simpl. rewrite length_app. simpl in *.
  destruct t as [|j t].
  - simpl in *. replace (length cur + 1)%nat with bs by lia.
    now rewrite Nat.eqb_refl.
  - destruct (Nat.eqb_spec (length cur + 1) bs) as [E|_]; [simpl in Hlen; lia|].
    rewrite IH; [now rewrite <- app_assoc | discriminate |].
    rewrite length_app. simpl in *. lia.
Qed.

Lemma batch_sampler_rest (l cur : list nat) :
  (length cur + length l < bs)%nat -> cur ++ l <> [] ->
  batch_sampler bs l cur = [cur ++ l].
Proof.
  revert cur. induction l as [|i l IH]; intros cur Hlen Hne; simpl in *.
  - rewrite app_nil_r in *. destruct cur; [congruence | reflexivity].
  - rewrite length_app. simpl.
    destruct (Nat.eqb_spec (length cur + 1) bs) as [E|_]; [lia|].
    rewrite IH; [now rewrite <- app_assoc | rewrite length_app; simpl; lia |].
    now destruct cur.
Qed.

End BatchSampler.

Lemma split_at {A : Type} (n : nat) (l : list A) :
  (n <= length l)%nat ->
  exists a b, l = a ++ b /\ length a = n /\ length b = (length l - n)%nat.
Proof.
  intros H. exists (firstn n l), (skipn n l).
  rewrite firstn_skipn, length_firstn, length_skipn. repeat split; lia.
Qed.

Lemma batch_sampler_100 (p : list nat) :
  length p = n_samples ->
  exists b1 b2 b3 b4,
    batch_sampler batch_size p [] = [b1; b2; b3; b4]
    /\ p = b1 ++ b2 ++ b3 ++ b4
    /\ length b1 = 32%nat /\ length b2 = 32%nat
    /\ length b3 = 32%nat /\ length b4 = 4%nat.
Proof.
  unfold n_samples, batch_size. intros Hp.
  destruct (split_at 32 p) as (b1 & r1 & -> & L1 & R1); [lia|].
  rewrite length_app in Hp.
  destruct (split_at 32 r1) as (b2 & r2 & -> & L2 & R2); [lia|].
  rewrite length_app in Hp.
  destruct (split_at 32 r2) as (b3 & b4 & -> & L3 & R3); [lia|].
  rewrite length_app in Hp.
  exists b1, b2, b3, b4. repeat split; try lia.
  rewrite (batch_sampler_fill 32 b1) by (try (intros ->; discriminate); simpl; lia).
  rewrite (batch_sampler_fill 32 b2) by (try (intros ->; discriminate); simpl; lia).
  rewrite (batch_sampler_fill 32 b3) by (try (intros ->; discriminate); simpl; lia).
  rewrite batch_sampler_rest; [reflexivity | simpl; lia |].
  simpl. intros ->. simpl in *. lia.
Qed.

(** ** Fetching a batch *)

Lemma mapM_ok_Forall2 {A B : Type} (f : A -> result B) (P : A -> B -> Prop)
  (l : list A) :
  (forall a, In a l -> exists b, f a = Ok b /\ P a b) ->
  exists bs, mapM f l = Ok bs /\ Forall2 P l bs.
Proof.
  induction l as [|a l IH]; intros H; simpl.
  - exists []. split; [reflexivity | constructor].
  - destruct (H a (or_introl eq_refl)) as [b [-> Hb]].
    destruct IH as [bs [-> Hbs]]; [intros; apply H; now right|].
    exists (b :: bs). split; [reflexivity | now constructor].
Qed.

Lemma fetch_ok (n : nat) (xs ys : tensor2) (idx : list nat) :
  shape2 n n_features xs -> shape2 n 1 ys ->
  idx <> [] /\ Forall (fun i => (i < n)%nat) idx ->
  exists inputs labels,
    fetch xs ys idx = Ok (inputs, labels)
    /\ Forall (fun r => length r = 2%nat) inputs
    /\ Forall (fun r => length r = 1%nat) labels
    /\ length inputs = length idx /\ length labels = length idx
    /\ Forall2 (fun i r => nth_error xs i = Some r) idx inputs
    /\ Forall2 (fun i r => nth_error ys i = Some r) idx labels.
Proof.
  intros [Lx Fx] [Ly Fy] [Hne Hidx]. unfold fetch.
  destruct (mapM_ok_Forall2
              (fun i => match nth_error xs i, nth_error ys i with
                        | Some r, Some l => Ok (r, l)
                        | _, _ => Raise IndexError
                        end)
              (fun i s => nth_error xs i = Some (fst s) /\ nth_error ys i = Some (snd s))
              idx) as [samples [-> HS]].
  { intros i Hi. rewrite Forall_forall in Hidx. specialize (Hidx i Hi).
    destruct (nth_error xs i) as [r|] eqn:Ex;
      [|apply nth_error_None in Ex; lia].
    destruct (nth_error ys i) as [l|] eqn:Ey;
      [|apply nth_error_None in Ey; lia].
    exists (r, l). auto. }
  rewrite bind_ret.
  assert (E : match samples with
              | [] => Raise IndexError
              | _ :: _ => Ok (map fst samples, map snd samples)
              end = Ok (map fst samples, map snd samples)).
  { destruct HS; [contradiction | reflexivity]. }
  rewrite E. clear E Hne. eexists _, _. split; [reflexivity|].
  rewrite Forall_forall in Fx, Fy.
  induction HS as [|i s idx samples [H1 H2] HS IH]; simpl.
  - repeat split; constructor.
  - inversion Hidx; subst.
    destruct IH as (I1 & I2 & I3 & I4 & I5 & I6); [assumption|].
    repeat split; try (constructor; auto); try (simpl; congruence).
    + apply Fx. eapply nth_error_In; eassumption.
    + apply Fy. eapply nth_error_In; eassumption.
Qed.

(** ** The training loops *)

Lemma mean2_concat (t : tensor2) : mean2 t = mean1 (concat t).
Proof. reflexivity. Qed.

Lemma loss_terms_length (outputs labels : tensor2) :
  Forall (fun r => length r = 1%nat) outputs ->
  Forall (fun r => length r = 1%nat) labels ->
  length outputs = length labels ->
  length (concat (zipWith (zipWith bce_term) outputs labels)) = length labels.
Proof.
  intros Ho; revert labels.
  induction Ho as [|o outputs Eo _ IH]; intros [|l labels] Hl Hlen;
    try discriminate; [reflexivity|].
  inversion Hl as [|? ? El Hl']; subst. simpl in Hlen.
  apply length_1 in Eo, El. destruct Eo as [p ->]. destruct El as [t ->].
  simpl. f_equal. apply IH; [assumption | lia].
Qed.

Lemma forward_columns (m : LinearClassifier) (x outputs : tensor2) :
  forward m x = Ok outputs -> params_shape m ->
  Forall (fun r => length r = 2%nat) x ->
  Forall (fun r => length r = 1%nat) outputs /\ length outputs = length x.
Proof.
  intros HF [Hw Hb] Hx.
  apply shape_1x2 in Hw. destruct Hw as [w0 [w1 Ew]].
  apply length_1 in Hb. destruct Hb as [b Eb].
  rewrite (forward_eq m w0 w1 b) in HF by assumption. inversion HF; subst.
  split; [|now rewrite length_map].
  apply Forall_forall. intros r Hr. apply in_map_iff in Hr.
  now destruct Hr as [row [<- _]].
Qed.

Lemma batch_loop_ok (batches : list (list nat)) (env : Env) (rl : R) :
  well_formed env ->
  Forall (fun b => b <> [] /\ Forall (fun i => (i < n_samples)%nat) b) batches ->
  exists env' tr,
    batch_loop batches env rl = Ok (env', fold_left Rplus (map fst tr) rl)
    /\ batch_trace batches env = Ok tr
    /\ mean_of_terms tr
    /\ term_counts tr = map (@length nat) batches
    /\ well_formed env'
    /\ same_globals env env'
    /\ console env' = console env
    /\ training (model env') = training (model env)
    /\ step (weight_state (optimizer env'))
       = (step (weight_state (optimizer env)) + length batches)%nat
    /\ step (bias_state (optimizer env'))
       = (step (bias_state (optimizer env)) + length batches)%nat.
Proof.
  intros Hwf Hb; revert env rl Hwf.
  induction Hb as [|idx rest Hidx _ IH]; intros env rl Hwf.
  - exists env, []. simpl. rewrite !Nat.add_0_r.
    unfold same_globals, mean_of_terms. splits; auto.
  - destruct Hwf as ([HX Hy] & Hm & Ho).
    destruct (fetch_ok n_samples (X env) (y env) idx HX Hy Hidx)
      as (inputs & labels & Ef & Fi & Fl & Li & Ll & _ & _).
    destruct (train_batch_ok inputs labels (model env) (optimizer env))
      as (m' & o' & outputs & Efw & Et & Hm' & Ho' & Etr & Esw & Esb);
      try assumption; try congruence.
    destruct (forward_columns _ _ _ Efw Hm Fi) as [Fo Lo].
    destruct (IH (with_model env m' o')
                 (rl + mean2 (zipWith (zipWith bce_term) outputs labels)))
      as (env' & tr & El & Etrace & Hmean & Elen & Hwf' & Hg & Hc & Htr & Hsw & Hsb).
    { unfold well_formed, data_shape. simpl. tauto. }
    exists env', ((mean2 (zipWith (zipWith bce_term) outputs labels),
                   concat (zipWith (zipWith bce_term) outputs labels)) :: tr).
    simpl. rewrite Ef, !bind_ret, Efw, Et, !bind_ret, El, Etrace, !bind_ret.
    split; [reflexivity|]. split; [reflexivity|].
    split; [constructor; [apply mean2_concat | exact Hmean]|].
    split.
    { unfold term_counts in *. simpl.
      rewrite Elen, loss_terms_length by (assumption || congruence).
      now rewrite Ll. }
    split; [assumption|]. split; [exact Hg|]. split; [exact Hc|].
    simpl in Htr, Hsw, Hsb. rewrite Htr, Hsw, Hsb, Etr, Esw, Esb.
    splits; (reflexivity || lia).
Qed.

Lemma perm_indices_bounded (p : list nat) (n : nat) :
  Permutation p (seq 0 n) -> Forall (fun i => (i < n)%nat) p.
Proof.
  intros HP. apply Forall_forall. intros i Hi.
  apply (Permutation_in _ HP) in Hi. apply in_seq in Hi. lia.
Qed.

Lemma batch_sampler_nonempty (bs : nat) (l cur : list nat) :
  Forall (fun b => b <> []) (batch_sampler bs l cur).
Proof.
  revert cur. induction l as [|i l IH]; intros cur; simpl.
  - destruct cur; constructor; [discriminate | constructor].
  - destruct (length (cur ++ [i]) =? bs)%nat; [|apply IH].
    constructor; [now destruct cur | apply IH].
Qed.

Lemma batches_bounded (p : list nat) (n : nat) :
  Forall (fun i => (i < n)%nat) p ->
  Forall (fun b => b <> [] /\ Forall (fun i => (i < n)%nat) b)
    (batch_sampler batch_size p []).
Proof.
  intros HP. apply Forall_forall. intros b Hb. split.
  - pose proof (batch_sampler_nonempty batch_size p []) as H.
    rewrite Forall_forall in H. now apply H.
  - apply Forall_forall. intros i Hi.
    rewrite Forall_forall in HP. apply HP.
    rewrite <- (app_nil_l p), <- (batch_sampler_concat batch_size p []).
    apply in_concat. eauto.
Qed.

Lemma len_dataloader_100 (xs : tensor2) :
  length xs = n_samples -> len_dataloader (length xs) = 4%nat.
Proof. intros ->. reflexivity. Qed.

(** One epoch from a well-formed state. *)
Lemma epoch_body_ok (src : RandomSource) (epoch : nat) (env : Env) :
  well_formed env ->
  Permutation (randperm src epoch) (seq 0 n_samples) ->
  exists env' tr,
    epoch_body src epoch env = Ok env'
    /\ batch_trace (batch_sampler batch_size (randperm src epoch) [])
         (with_model env (set_training true (model env)) (optimizer env)) = Ok tr
    /\ mean_of_terms tr
    /\ term_counts tr = [32; 32; 32; 4]%nat
    /\ well_formed env'
    /\ same_globals env env'
    /\ training (model env') = true
    /\ step (weight_state (optimizer env'))
       = (step (weight_state (optimizer env)) + 4)%nat
    /\ step (bias_state (optimizer env'))
       = (step (bias_state (optimizer env)) + 4)%nat
    /\ console env'
       = console env
         ++ (if ((epoch + 1) mod 10 =? 0)%nat
             then [LossLine (epoch + 1) epochs
                            (fold_left Rplus (map fst tr) 0 / INR 4)]
             else []).
Proof.
  intros Hwf HP.
  set (env0 := with_model env (set_training true (model env)) (optimizer env)).
  assert (Hwf0 : well_formed env0).
  { destruct Hwf as (H1 & H2 & H3). unfold well_formed, data_shape, params_shape.
    simpl. tauto. }
  destruct (batch_loop_ok (batch_sampler batch_size (randperm src epoch) []) env0 0)
    as (env' & tr & El & Etrace & Hmean & Elen & Hwf' & Hg & Hc & Htr & Hsw & Hsb).
  { assumption. }
  { apply batches_bounded, perm_indices_bounded, HP. }
  destruct (batch_sampler_100 (randperm src epoch))
    as (b1 & b2 & b3 & b4 & EB & _ & L1 & L2 & L3 & L4).
  { rewrite (Permutation_length HP). apply length_seq. }
  rewrite EB in Elen, Hsw, Hsb. simpl in Elen, Hsw, Hsb.
  rewrite L1, L2, L3, L4 in Elen.
  assert (HlenX : len_dataloader (length (X env')) = 4%nat).
  { apply len_dataloader_100. destruct Hwf' as ([[HL _] _] & _). exact HL. }
  unfold epoch_body. fold env0. rewrite El, bind_ret. cbv zeta. rewrite HlenX.
  change (4 =? 0)%nat with false. cbv iota.
  destruct Hg as (G1 & G2 & G3 & G4). destruct Hwf' as (D' & P' & A').
  simpl in Htr, G1, G2, G3, G4, Hc.
  destruct ((epoch + 1) mod 10 =? 0)%nat;
    eexists _, tr; (split; [reflexivity|]); unfold well_formed, same_globals;
    simpl; rewrite ?app_nil_r; splits; auto; try congruence.
Qed.

(** ** Evaluation *)

Lemma fold_Rplus_acc (l : list R) (c : R) :
  fold_left Rplus l c = c + fold_left Rplus l 0.
Proof.
  revert c. induction l as [|b l IH]; intros c; simpl; [ring|].
  rewrite (IH (c + b)), (IH (0 + b)). ring.
Qed.

Lemma sum1_cons (a : R) (l : list R) : sum1 (a :: l) = a + sum1 l.
Proof. unfold sum1. simpl. rewrite fold_Rplus_acc. ring. Qed.

Lemma sum1_app (l1 l2 : list R) : sum1 (l1 ++ l2) = sum1 l1 + sum1 l2.
Proof.
  induction l1 as [|a l1 IH]; simpl.
  - unfold sum1 at 2. simpl. ring.
  - rewrite !sum1_cons, IH. ring.
Qed.

Lemma broadcast2_same {B : Type} (f : R -> R -> B) (a b : tensor2) :
  Forall2 (fun r s => length r = length s) a b ->
  broadcast2 f a b = Ok (zipWith (zipWith f) a b).
Proof.
  intros H. unfold broadcast2. rewrite (Forall2_length H), Nat.eqb_refl.
  induction H as [|r s a b Hrs _ IH]; [reflexivity|].
  simpl. unfold broadcast1 at 1. rewrite Hrs, Nat.eqb_refl, bind_ret, IH.
  reflexivity.
Qed.

Lemma hits_sum (pred labels : tensor2) :
  Forall (fun r => length r = 1%nat) pred ->
  Forall (fun r => length r = 1%nat) labels ->
  length pred = length labels ->
  sum1 (concat (float2 (zipWith (zipWith Reqb) pred labels)))
  = INR (matches pred labels)
  /\ numel (float2 (zipWith (zipWith Reqb) pred labels)) = length labels.
Proof.
  intros Hp; revert labels.
  induction Hp as [|p pred Ep _ IH]; intros [|l labels] Hl Hlen; try discriminate.
  - split; reflexivity.
  - inversion Hl as [|? ? El Hl']; subst. simpl in Hlen.
    destruct (IH labels Hl') as [IH1 IH2]; [lia|].
    apply length_1 in Ep, El. destruct Ep as [a ->]. destruct El as [t ->].
    unfold matches, numel in *. simpl. rewrite sum1_cons, IH1, IH2.
    split; [|reflexivity].
    unfold Reqb. destruct (Req_dec_T a t) as [E|NE].
    + subst. destruct (list_eq_dec Req_dec_T [t] [t]); [|congruence].
      simpl length. rewrite S_INR. simpl. ring.
    + destruct (list_eq_dec Req_dec_T [a] [t]); [congruence|]. simpl. ring.
Qed.

Lemma evaluate_ok (env : Env) :
  well_formed env ->
  exists outputs pred acc,
    forward (model env) (X env) = Ok outputs
    /\ evaluate env
       = Ok {| X := X env; y := y env;
               model := set_training false (model env);
               optimizer := optimizer env;
               predicted := Some pred; accuracy := Some acc;
               console := console env ++ [AccuracyLine acc] |}
    /\ shape2 n_samples 1 outputs
    /\ pred = map (map (fun p => if Rgt_dec p 0.5 then 1 else 0)) outputs
    /\ acc = INR (matches pred (y env)) / 100.
Proof.
  intros ([[LX FX] [Ly Fy]] & Hm & _).
  pose proof Hm as [Hw Hb].
  apply shape_1x2 in Hw. destruct Hw as [w0 [w1 Ew]].
  apply length_1 in Hb. destruct Hb as [b Eb].
  set (outputs := map (fun row => [sigmoid (logit w0 w1 b row)]) (X env)).
  assert (Efw : forward (model env) (X env) = Ok outputs)
    by (apply forward_eq; assumption).
  destruct (forward_columns _ _ _ Efw Hm FX) as [Fo Lo].
  set (pred := map (map (fun p => if Rgt_dec p 0.5 then 1 else 0)) outputs).
  assert (Epred : float2 (gt_scalar2 outputs 0.5) = pred).
  { unfold float2, gt_scalar2, float1, gt_scalar1, pred. rewrite map_map.
    apply map_ext. intros r. rewrite map_map. apply map_ext. intros p.
    unfold Rgtb, float_of_bool. now destruct (Rgt_dec p 0.5). }
  assert (Fp : Forall (fun r => length r = 1%nat) pred).
  { apply Forall_forall. intros r Hr. apply in_map_iff in Hr.
    destruct Hr as [o [<- Ho]]. rewrite length_map.
    rewrite Forall_forall in Fo. now apply Fo. }
  assert (Lp : length pred = length (y env)).
  { unfold pred. rewrite length_map, Lo. congruence. }
  assert (F2 : Forall2 (fun r s => length r = length s) pred (y env)).
  { clear - Fp Fy Lp. revert Lp Fy. generalize (y env) as ys.
    induction Fp as [|p pred Hp _ IH]; intros [|l ys] Hlen Fy; try discriminate;
      constructor.
    - inversion Fy; subst. congruence.
    - apply IH; [simpl in Hlen; lia | now inversion Fy]. }
  destruct (hits_sum pred (y env) Fp Fy Lp) as [Hsum Hnum].
  exists outputs, pred, (INR (matches pred (y env)) / 100).
  split; [exact Efw|]. split.
  - unfold evaluate.
    change (forward (set_training false (model env)) (X env))
      with (forward (model env) (X env)).
    rewrite Efw, bind_ret, Epred, (broadcast2_same Reqb pred (y env) F2), bind_ret.
    unfold mean2. rewrite Hsum, Hnum, Ly. unfold n_samples.
    replace (INR 100) with 100 by (simpl; lra). reflexivity.
  - split; [|split; reflexivity].
    split; [congruence | exact Fo].
Qed.

Lemma setup_ok (src : RandomSource) :
  exists env,
    setup src = Ok env
    /\ well_formed env
    /\ make_data src = Ok (X env, y env)
    /\ model env = new_classifier n_features (init_draw src)
    /\ optimizer env = new_adam (model env)
    /\ predicted env = None /\ accuracy env = None /\ console env = [].
Proof.
  destruct (dataset_labels_shape src) as (xs & ys & E & Hx & Hy).
  unfold setup. rewrite E, bind_ret. unfold tensor_dataset.
  destruct Hx as [Lx Fx]. destruct Hy as [Ly Fy]. rewrite Lx, Ly, Nat.eqb_refl, bind_ret.
  unfold dataloader. cbn [fst]. rewrite Lx. cbn [n_samples Nat.eqb]. rewrite bind_ret.
  eexists. split; [reflexivity|]. simpl.
  unfold well_formed, data_shape, params_shape, adam_shape, shape2. simpl.
  splits; auto; repeat constructor.
Qed.


Lemma for_epochs_ok (src : RandomSource) (n a : nat) (env : Env) :
  well_formed env ->
  (forall e, (a <= e < a + n)%nat -> Permutation (randperm src e) (seq 0 n_samples)) ->
  exists env' values,
    for_epochs src (seq a n) env = Ok env'
    /\ well_formed env'
    /\ same_globals env env'
    /\ (training (model env') = if (n =? 0)%nat then training (model env) else true)
    /\ step (weight_state (optimizer env'))
       = (step (weight_state (optimizer env)) + 4 * n)%nat
    /\ step (bias_state (optimizer env'))
       = (step (bias_state (optimizer env)) + 4 * n)%nat
    /\ length values = length (filter prints (seq a n))
    /\ console env' = console env ++ loss_lines (seq a n) values.
Proof.
  revert a env. induction n as [|n IH]; intros a env Hwf HP.
  - exists env, []. simpl. rewrite !Nat.add_0_r, app_nil_r.
    unfold same_globals. splits; auto.
  - destruct (epoch_body_ok src a env Hwf) as
      (env1 & tr & E1 & _ & _ & _ & Hwf1 & G1 & T1 & Sw1 & Sb1 & C1).
    { apply HP. lia. }
    destruct (IH (S a) env1 Hwf1) as
      (env2 & values & E2 & Hwf2 & G2 & T2 & Sw2 & Sb2 & L2 & C2).
    { intros e He. apply HP. lia. }
    simpl seq. simpl for_epochs. rewrite E1, bind_ret, E2.
    unfold loss_lines in *. simpl filter. fold (prints a) in C1.
    destruct G1 as (? & ? & ? & ?). destruct G2 as (? & ? & ? & ?).
    destruct (prints a).
    + exists env2, (fold_left Rplus (map fst tr) 0 / INR 4 :: values).
      unfold same_globals in *. rewrite C2, C1, <- app_assoc. simpl.
      splits; try tauto; try congruence; try lia.
      destruct n; simpl in T2 |- *; congruence.
    + exists env2, values.
      unfold same_globals in *. rewrite C2, C1, app_nil_r.
      splits; try tauto; try congruence; try lia.
      destruct n; simpl in T2 |- *; congruence.
Qed.

(** ** The run as a whole *)

Section ValidRun.

Variable src : RandomSource.
Hypothesis Hsrc : valid_source src.

Lemma train_ok (env : Env) :
  well_formed env ->
  exists env' l1 l2 l3 l4 l5 l6 l7 l8 l9 l10,
    train src env = Ok env'
    /\ well_formed env'
    /\ same_globals env env'
    /\ training (model env') = true
    /\ step (weight_state (optimizer env'))
       = (step (weight_state (optimizer env)) + 400)%nat
    /\ step (bias_state (optimizer env'))
       = (step (bias_state (optimizer env)) + 400)%nat
    /\ console env'
       = console env
         ++ [LossLine 10 100 l1; LossLine 20 100 l2; LossLine 30 100 l3;
             LossLine 40 100 l4; LossLine 50 100 l5; LossLine 60 100 l6;
             LossLine 70 100 l7; LossLine 80 100 l8; LossLine 90 100 l9;
             LossLine 100 100 l10].
Proof.
  intros Hwf.
  destruct (for_epochs_ok src epochs 0 env Hwf) as
    (env' & values & E & Hwf' & G & T & Sw & Sb & L & C).
  { intros e He. apply Hsrc. lia. }
  change (length (filter prints (seq 0 epochs))) with 10%nat in L.
  do 11 (destruct values as [|? values]; try discriminate).
  exists env'. do 10 eexists. unfold train.
  splits; try eassumption. exact C.
Qed.

Lemma notebook_ok :
  exists env0 env1 env2 l1 l2 l3 l4 l5 l6 l7 l8 l9 l10 acc,
    setup src = Ok env0 /\ train src env0 = Ok env1 /\ evaluate env1 = Ok env2
    /\ notebook src = Ok env2
    /\ well_formed env0 /\ well_formed env1
    /\ training (model env1) = true
    /\ step (weight_state (optimizer env1)) = 400%nat
    /\ step (bias_state (optimizer env1)) = 400%nat
    /\ model env2 = set_training false (model env1)
    /\ console env2
       = [LossLine 10 100 l1; LossLine 20 100 l2; LossLine 30 100 l3;
          LossLine 40 100 l4; LossLine 50 100 l5; LossLine 60 100 l6;
          LossLine 70 100 l7; LossLine 80 100 l8; LossLine 90 100 l9;
          LossLine 100 100 l10; AccuracyLine acc].
Proof.
  destruct (setup_ok src) as (env0 & E0 & Hwf0 & _ & Em & Eo & _ & _ & C0).
  destruct (train_ok env0 Hwf0)
    as (env1 & l1 & l2 & l3 & l4 & l5 & l6 & l7 & l8 & l9 & l10
        & E1 & Hwf1 & _ & T1 & Sw & Sb & C1).
  destruct (evaluate_ok env1 Hwf1) as (outputs & pred & acc & _ & E2 & _).
  rewrite C0 in C1. rewrite Eo, Em in Sw, Sb. simpl in C1, Sw, Sb.
  eexists env0, env1, _, l1, l2, l3, l4, l5, l6, l7, l8, l9, l10, acc.
  splits; try eassumption; try reflexivity.
  - unfold notebook. rewrite E0, bind_ret, E1, bind_ret. exact E2.
  - simpl. rewrite C1. reflexivity.
Qed.

End ValidRun.

(** ** Example inputs *)

Lemma plain_source_valid : valid_source plain_source.
Proof. intros e _. apply Permutation_refl. Qed.

Lemma plain_env_well_formed : well_formed plain_env.
Proof.
  unfold well_formed, data_shape, params_shape, adam_shape, shape2, plain_env.
  simpl model. simpl optimizer. simpl X. simpl y.
  splits; try (apply repeat_length); try (apply Forall_repeat; reflexivity);
    try reflexivity; repeat constructor.
Qed.

(** ** The model (C1) *)

(** *** When binary32 arithmetic yields NaN *)












(** *** The constants of the examples *)

Example f32_constants_valid :
  valid_binary 24 128 f32_two = true /\ valid_binary 24 128 f32_3e38 = true.
Proof. split; reflexivity. Qed.

Example f32_product_overflows :
  mul32 f32_3e38 f32_two = S754_infinity false
  /\ mul32 (SFopp f32_3e38) f32_two = S754_infinity true.
Proof. split; reflexivity. Qed.

(** *** The forward pass *)




(** ** The data (C2) *)

(** C2: the data cell succeeds and yields a feature matrix of shape
    (100, 2) and a label column of shape (100, 1) in which the label of
    sample i is 1 if the sum of its two features is greater than 0 and 0
    otherwise, a function of the features of that sample alone. *)
Theorem dataset_labels (src : RandomSource) :
  exists xs ys,
    make_data src = Ok (xs, ys)
    /\ shape2 100 2 xs
    /\ shape2 100 1 ys
    /\ forall i, (i < 100)%nat ->
         exists a b, nth_error xs i = Some [a; b]
                     /\ nth_error ys i = Some [if Rgt_dec (a + b) 0 then 1 else 0].
Proof.
  eexists _, _. split; [apply make_data_eq|].
  split; [apply from_draws_shape|]. split.
  - split; [now rewrite length_map, length_seq|].
    apply Forall_forall; intros r Hr. apply in_map_iff in Hr.
    now destruct Hr as [i [<- _]].
  - intros i Hi. exists (normal src (i * 2 + 0)%nat), (normal src (i * 2 + 1)%nat).
    split.
    + now rewrite from_draws_nth_error.
    + rewrite nth_error_map, nth_error_seq. unfold n_samples.
      destruct (Nat.ltb_spec i 100); [|lia]. simpl. unfold Rgtb, float_of_bool.
      now destruct (Rgt_dec _ _).
Qed.

Lemma dataset_labels_witness :
  exists xs ys,
    make_data plain_source = Ok (xs, ys)
    /\ shape2 100 2 xs
    /\ shape2 100 1 ys
    /\ forall i, (i < 100)%nat ->
         exists a b, nth_error xs i = Some [a; b]
                     /\ nth_error ys i = Some [if Rgt_dec (a + b) 0 then 1 else 0].
Proof. exact (dataset_labels plain_source). Defined.

(** ** Evaluation (C3) *)

(** C3: evaluation of a well-formed state succeeds; the predicted label of
    sample i is 1 exactly when the sigmoid output of the model on that
    sample is strictly greater than 0.5 and 0 otherwise, and the accuracy
    that is stored and printed is the number of the 100 samples whose
    predicted label equals the true label, divided by 100. *)
Theorem evaluation_accuracy (env : Env) :
  well_formed env ->
  exists outputs pred acc env',
    forward (model env) (X env) = Ok outputs
    /\ evaluate env = Ok env'
    /\ predicted env' = Some pred
    /\ accuracy env' = Some acc
    /\ console env' = console env ++ [AccuracyLine acc]
    /\ (forall i, (i < 100)%nat ->
          exists p, nth_error outputs i = Some [p]
                    /\ nth_error pred i = Some [if Rgt_dec p 0.5 then 1 else 0])
    /\ acc = INR (matches pred (y env)) / 100.
Proof.
  intros Hwf.
  destruct (evaluate_ok env Hwf) as (outputs & pred & acc & Ef & Ee & So & Ep & Ea).
  eexists outputs, pred, acc, _.
  splits; try eassumption; try reflexivity.
  intros i Hi. destruct So as [Lo Fo].
  destruct (nth_error outputs i) as [r|] eqn:Er;
    [|apply nth_error_None in Er; unfold n_samples in Lo; lia].
  rewrite Forall_forall in Fo.
  pose proof (Fo r (nth_error_In _ _ Er)) as Hr.
  apply length_1 in Hr. destruct Hr as [p ->].
  exists p. split; [reflexivity|].
  rewrite Ep, nth_error_map, Er. reflexivity.
Qed.

Lemma evaluation_accuracy_witness :
  exists outputs pred acc env',
    forward (model plain_env) (X plain_env) = Ok outputs
    /\ evaluate plain_env = Ok env'
    /\ predicted env' = Some pred
    /\ accuracy env' = Some acc
    /\ console env' = console plain_env ++ [AccuracyLine acc]
    /\ (forall i, (i < 100)%nat ->
          exists p, nth_error outputs i = Some [p]
                    /\ nth_error pred i = Some [if Rgt_dec p 0.5 then 1 else 0])
    /\ acc = INR (matches pred (y plain_env)) / 100.
Proof. apply evaluation_accuracy. apply plain_env_well_formed. Defined.

(** ** One pass over the loader (C4) *)

Lemma count_occ_seq (n i : nat) :
  (i < n)%nat -> count_occ Nat.eq_dec (seq 0 n) i = 1%nat.
Proof.
  intros Hi. apply NoDup_count_occ'; [apply seq_NoDup | apply in_seq; lia].
Qed.

(** *** The order of a pass is a permutation of the sample indices *)

Lemma update_length (r : list nat) (i v : nat) : length (update r i v) = length r.
Proof.
  revert i. induction r as [|a r IH]; intros [|i]; simpl; auto.
Qed.

Lemma nth_update (r : list nat) (i v k : nat) :
  (i < length r)%nat ->
  nth k (update r i v) 0%nat = if (k =? i)%nat then v else nth k r 0%nat.
Proof.
  revert i k. induction r as [|a r IH]; intros i k Hi; simpl in Hi; [lia|].
  destruct i as [|i], k as [|k]; simpl; try reflexivity.
  apply IH. lia.
Qed.

Lemma nth_seq_id (r : list nat) :
  map (fun k => nth k r 0%nat) (seq 0 (length r)) = r.
Proof.
  induction r as [|a r IH]; [reflexivity|].
  simpl. f_equal. rewrite <- seq_shift, map_map. exact IH.
Qed.

Lemma exchange_length (r : list nat) (i j : nat) :
  length (exchange r i j) = length r.
Proof. unfold exchange. now rewrite !update_length. Qed.

(** Exchanging two entries reads the list through a transposition. *)
Lemma exchange_nth (r : list nat) (i j k : nat) :
  (i < length r)%nat -> (j < length r)%nat ->
  nth k (exchange r i j) 0%nat
  = nth (if (k =? i)%nat then j else if (k =? j)%nat then i else k) r 0%nat.
Proof.
  intros Hi Hj. unfold exchange.
  rewrite nth_update by (now rewrite update_length).
  rewrite nth_update by assumption.
  destruct (Nat.eqb_spec k j) as [Ekj|Hkj], (Nat.eqb_spec k i) as [Eki|Hki];
    subst; reflexivity.
Qed.

Lemma exchange_perm (r : list nat) (i j : nat) :
  (i < length r)%nat -> (j < length r)%nat -> Permutation (exchange r i j) r.
Proof.
  intros Hi Hj.
  set (t := fun k => if (k =? i)%nat then j else if (k =? j)%nat then i else k).
  assert (Ht : forall k, t (t k) = k).
  { intros k. unfold t.
    destruct (Nat.eqb_spec k i) as [->|Hki].
    - destruct (Nat.eqb_spec j i) as [->|Hji]; [reflexivity|].
      now rewrite Nat.eqb_refl.
    - destruct (Nat.eqb_spec k j) as [->|Hkj]; [now rewrite Nat.eqb_refl|].
      destruct (Nat.eqb_spec k i); [contradiction|].
      now destruct (Nat.eqb_spec k j). }
  assert (Hb : forall k, (k < length r)%nat -> (t k < length r)%nat).
  { intros k Hk. unfold t.
    destruct (k =? i)%nat; [assumption|]. now destruct (k =? j)%nat. }
  assert (HP : Permutation (map t (seq 0 (length r))) (seq 0 (length r))).
  { apply NoDup_Permutation.
    - apply Finite.Injective_map_NoDup; [|apply seq_NoDup].
      intros a b Hab. rewrite <- (Ht a), <- (Ht b). now f_equal.
    - apply seq_NoDup.
    - intros k. rewrite in_map_iff. split.
      + intros [k' [<- Hk']]. apply in_seq in Hk'. apply in_seq.
        split; [lia|]. simpl. apply Hb. lia.
      + intros Hk. apply in_seq in Hk. exists (t k). split; [apply Ht|].
        apply in_seq. split; [lia|]. simpl. apply Hb. lia. }
  assert (E : exchange r i j = map (fun k => nth k r 0%nat) (map t (seq 0 (length r)))).
  { rewrite <- (nth_seq_id (exchange r i j)), exchange_length, map_map.
    apply map_ext. intros k. now apply exchange_nth. }
  rewrite E.
  apply Permutation_trans with (map (fun k => nth k r 0%nat) (seq 0 (length r))).
  - apply Permutation_map. exact HP.
  - rewrite nth_seq_id. apply Permutation_refl.
Qed.

Lemma shuffle_perm (raw : nat -> nat) (n steps i : nat) (r : list nat) :
  length r = n -> (i + steps < n)%nat ->
  Permutation (shuffle raw n i steps r) r.
Proof.
  revert i r. induction steps as [|steps IH]; intros i r Hr Hi; simpl.
  - apply Permutation_refl.
  - assert (Hj : (raw i mod (n - i) + i < n)%nat).
    { pose proof (Nat.mod_upper_bound (raw i) (n - i)). lia. }
    rewrite IH by (rewrite ?exchange_length; lia).
    apply exchange_perm; lia.
Qed.

Lemma torch_randperm_perm (n : nat) (raw : nat -> nat) :
  Permutation (torch_randperm n raw) (seq 0 n).
Proof.
  unfold torch_randperm. destruct n as [|n]; [apply Permutation_refl|].
  apply shuffle_perm; [apply length_seq | lia].
Qed.

(** With the draws 7, 2, 4, 1 the positions exchanged are (0, 2), (1, 3),
    (2, 3) and (3, 4). *)
Example randperm_5 :
  torch_randperm 5 (fun i => nth i [7; 2; 4; 1] 0)%nat = [2; 3; 1; 4; 0]%nat.
Proof. reflexivity. Qed.

(** *** The loop body on each batch *)

Lemma body_on_batch_ok (env : Env) (b : list nat) (m : LinearClassifier) (o : Adam) :
  data_shape env -> params_shape m -> adam_shape o ->
  b <> [] /\ Forall (fun i => (i < n_samples)%nat) b ->
  exists m' o' l,
    body_on_batch env b m o m' o' l /\ params_shape m' /\ adam_shape o'.
Proof.
  intros [SX Sy] Hm Ho Hb.
  destruct (fetch_ok n_samples (X env) (y env) b SX Sy Hb)
    as (inputs & labels & Ef & Fi & Fl & Li & Ll & F1 & F2).
  destruct (train_batch_ok inputs labels m o)
    as (m' & o' & outputs & Efw & Et & Hm' & Ho' & _ & Esw & Esb);
    try assumption; try congruence.
  exists m', o', (mean2 (zipWith (zipWith bce_term) outputs labels)).
  split; [|split; assumption].
  exists inputs, labels, outputs.
  pose proof Et as Et'. unfold train_batch in Et'.
  rewrite Efw, bind_ret in Et'.
  destruct (criterion outputs labels) as [l|e] eqn:Ec; [|discriminate].
  rewrite bind_ret in Et'.
  destruct (adam_step (backward (zero_grad m) inputs outputs labels) o)
    as [m2 o2] eqn:Ea.
  injection Et' as -> -> ->.
  splits; auto.
Qed.

Lemma batch_loop_step (env : Env) (b : list nat) (rest : list (list nat)) (rl : R)
  (m' : LinearClassifier) (o' : Adam) (l : R) :
  body_on_batch env b (model env) (optimizer env) m' o' l ->
  batch_loop (b :: rest) env rl = batch_loop rest (with_model env m' o') (rl + l).
Proof.
  intros (inputs & labels & outputs & Ef & _ & _ & Et & _).
  cbn [batch_loop]. now rewrite Ef, bind_ret, Et, bind_ret.
Qed.

(** C4: in an epoch whose index order is the one [torch.randperm] builds,
    whatever integers the generator returns, the batch sampler yields four
    batches, of 32, 32, 32 and 4 indices, in which each of the 100 sample
    indices occurs exactly once and no other index occurs.  The epoch
    succeeds, and it runs the loop body (forward pass, loss, zeroing of
    the gradients, backward pass, optimizer step) once on each batch, in
    order: on the samples at the indices of the first batch from the model
    and the optimizer the epoch starts with, on those of each later batch
    from the model and the optimizer the previous run left; the model and
    the optimizer after the epoch are those the run on the fourth batch
    left, and a line printed by the epoch carries the sum of the four
    losses over 4. *)
Theorem epoch_visits_each_sample_once (src : RandomSource) (epoch : nat) (env : Env)
  (raw : nat -> nat) :
  well_formed env ->
  randperm src epoch = torch_randperm n_samples raw ->
  exists b1 b2 b3 b4 m1 o1 l1 m2 o2 l2 m3 o3 l3 m4 o4 l4 env',
    batch_sampler batch_size (randperm src epoch) [] = [b1; b2; b3; b4]
    /\ map (@length nat) [b1; b2; b3; b4] = [32; 32; 32; 4]%nat
    /\ (forall i, (i < 100)%nat ->
          count_occ Nat.eq_dec (b1 ++ b2 ++ b3 ++ b4) i = 1%nat)
    /\ (forall i, (100 <= i)%nat ->
          count_occ Nat.eq_dec (b1 ++ b2 ++ b3 ++ b4) i = 0%nat)
    /\ body_on_batch env b1 (set_training true (model env)) (optimizer env) m1 o1 l1
    /\ body_on_batch env b2 m1 o1 m2 o2 l2
    /\ body_on_batch env b3 m2 o2 m3 o3 l3
    /\ body_on_batch env b4 m3 o3 m4 o4 l4
    /\ epoch_body src epoch env = Ok env'
    /\ model env' = m4 /\ optimizer env' = o4
    /\ console env'
       = console env
         ++ (if prints epoch
             then [LossLine (epoch + 1) epochs ((0 + l1 + l2 + l3 + l4) / INR 4)]
             else []).
Proof.
  intros Hwf Hraw.
  assert (HP : Permutation (randperm src epoch) (seq 0 n_samples))
    by (rewrite Hraw; apply torch_randperm_perm).
  destruct (batch_sampler_100 (randperm src epoch))
    as (b1 & b2 & b3 & b4 & EB & Ep & L1 & L2 & L3 & L4).
  { rewrite (Permutation_length HP). apply length_seq. }
  pose proof (batches_bounded _ _ (perm_indices_bounded _ _ HP)) as HB.
  rewrite EB in HB.
  inversion HB as [|? ? B1 HB1]; subst. inversion HB1 as [|? ? B2 HB2]; subst.
  inversion HB2 as [|? ? B3 HB3]; subst. inversion HB3 as [|? ? B4 _]; subst.
  destruct Hwf as (D & Hm & Ho).
  destruct (body_on_batch_ok env b1 (set_training true (model env)) (optimizer env))
    as (m1 & o1 & l1 & S1 & Hm1 & Ho1); try assumption.
  destruct (body_on_batch_ok env b2 m1 o1) as (m2 & o2 & l2 & S2 & Hm2 & Ho2);
    try assumption.
  destruct (body_on_batch_ok env b3 m2 o2) as (m3 & o3 & l3 & S3 & Hm3 & Ho3);
    try assumption.
  destruct (body_on_batch_ok env b4 m3 o3) as (m4 & o4 & l4 & S4 & Hm4 & Ho4);
    try assumption.
  assert (HlenX : len_dataloader (length (X env)) = 4%nat).
  { apply len_dataloader_100. destruct D as [[HL _] _]. exact HL. }
  set (env4 := with_model env m4 o4).
  assert (El : batch_loop [b1; b2; b3; b4]
                 (with_model env (set_training true (model env)) (optimizer env)) 0
               = Ok (env4, 0 + l1 + l2 + l3 + l4)).
  { rewrite (batch_loop_step _ b1 _ _ m1 o1 l1) by exact S1.
    rewrite (batch_loop_step _ b2 _ _ m2 o2 l2) by exact S2.
    rewrite (batch_loop_step _ b3 _ _ m3 o3 l3) by exact S3.
    rewrite (batch_loop_step _ b4 _ _ m4 o4 l4) by exact S4.
    reflexivity. }
  exists b1, b2, b3, b4, m1, o1, l1, m2, o2, l2, m3, o3, l3, m4, o4, l4.
  exists (if prints epoch
          then print (LossLine (epoch + 1) epochs ((0 + l1 + l2 + l3 + l4) / INR 4)) env4
          else env4).
  split; [exact EB|].
  split; [simpl; now rewrite L1, L2, L3, L4|].
  split.
  { intros i Hi. rewrite <- Ep.
    rewrite (proj1 (Permutation_count_occ Nat.eq_dec _ _) HP).
    now apply count_occ_seq. }
  split.
  { intros i Hi. rewrite <- Ep.
    rewrite (proj1 (Permutation_count_occ Nat.eq_dec _ _) HP).
    apply count_occ_not_In. rewrite in_seq. unfold n_samples. lia. }
  do 4 (split; [assumption|]).
  split.
  { unfold epoch_body. cbv zeta. rewrite EB, El, bind_ret.
    change (length (X env4)) with (length (X env)). rewrite HlenX.
    change (4 =? 0)%nat with false. cbv iota. unfold prints.
    now destruct ((epoch + 1) mod 10 =? 0)%nat. }
  destruct (prints epoch); cbn [print with_model model optimizer console env4];
    rewrite ?app_nil_r; splits; reflexivity.
Qed.

Lemma epoch_visits_each_sample_once_witness :
  exists b1 b2 b3 b4 m1 o1 l1 m2 o2 l2 m3 o3 l3 m4 o4 l4 env',
    batch_sampler batch_size (randperm plain_source 0) [] = [b1; b2; b3; b4]
    /\ map (@length nat) [b1; b2; b3; b4] = [32; 32; 32; 4]%nat
    /\ (forall i, (i < 100)%nat ->
          count_occ Nat.eq_dec (b1 ++ b2 ++ b3 ++ b4) i = 1%nat)
    /\ (forall i, (100 <= i)%nat ->
          count_occ Nat.eq_dec (b1 ++ b2 ++ b3 ++ b4) i = 0%nat)
    /\ body_on_batch plain_env b1 (set_training true (model plain_env))
         (optimizer plain_env) m1 o1 l1
    /\ body_on_batch plain_env b2 m1 o1 m2 o2 l2
    /\ body_on_batch plain_env b3 m2 o2 m3 o3 l3
    /\ body_on_batch plain_env b4 m3 o3 m4 o4 l4
    /\ epoch_body plain_source 0 plain_env = Ok env'
    /\ model env' = m4 /\ optimizer env' = o4
    /\ console env'
       = console plain_env
         ++ (if prints 0
             then [LossLine (0 + 1) epochs ((0 + l1 + l2 + l3 + l4) / INR 4)]
             else []).
Proof.
  apply (epoch_visits_each_sample_once plain_source 0 plain_env (fun _ => 0%nat)).
  - apply plain_env_well_formed.
  - vm_compute. reflexivity.
Defined.

(** ** Parameter shapes (C5) *)

Lemma mapM_ok_inv {A B : Type} (f : A -> result B) (l : list A) (bs : list B) :
  mapM f l = Ok bs -> Forall2 (fun a b => f a = Ok b) l bs.
Proof.
  revert bs. induction l as [|a l IH]; intros bs H; simpl in H.
  - inversion H. constructor.
  - apply bind_ok in H. destruct H as [b [Hb H]].
    apply bind_ok in H. destruct H as [bs' [Hbs H]]. inversion H; subst.
    constructor; auto.
Qed.

Lemma forward_ok_shapes (m : LinearClassifier) (x outputs : tensor2) :
  params_shape m -> forward m x = Ok outputs ->
  Forall (fun r => length r = 2%nat) x.
Proof.
  intros [Hw Hb] H.
  apply shape_1x2 in Hw. destruct Hw as [w0 [w1 Ew]].
  apply length_1 in Hb. destruct Hb as [b Eb].
  unfold forward in H. apply bind_ok in H. destruct H as [z [Hz _]].
  unfold linear in Hz. rewrite Ew, Eb in Hz. simpl combine in Hz.
  apply mapM_ok_inv in Hz. clear - Hz.
  induction Hz as [|row zr x z Hrow _ IH]; constructor; [|assumption].
  simpl in Hrow. unfold linear_unit in Hrow. simpl fst in Hrow. simpl length in Hrow.
  destruct (Nat.eqb_spec (length row) 2); [assumption | discriminate].
Qed.

Lemma same_shape_inv (a b : tensor2) :
  same_shape a b = true ->
  Forall (fun r => length r = 1%nat) a ->
  length a = length b /\ Forall (fun r => length r = 1%nat) b.
Proof.
  unfold same_shape. intros H Ha. apply andb_prop in H. destruct H as [HL HF].
  apply Nat.eqb_eq in HL. split; [assumption|].
  revert b HL HF. induction Ha as [|r a Hr _ IH]; intros [|s b] HL HF;
    try discriminate; constructor.
  - simpl in HF. apply andb_prop in HF. destruct HF as [E _].
    apply Nat.eqb_eq in E. congruence.
  - simpl in HF. apply andb_prop in HF. destruct HF as [_ HF].
    apply IH; [simpl in HL; lia | assumption].
Qed.

Lemma criterion_ok_shapes (input target : tensor2) (loss : R) :
  criterion input target = Ok loss -> same_shape input target = true.
Proof.
  unfold criterion. destruct (same_shape input target); [reflexivity|discriminate].
Qed.

Lemma train_batch_preserves (inputs labels : tensor2) (m m' : LinearClassifier)
  (o o' : Adam) (loss : R) :
  params_shape m -> adam_shape o ->
  train_batch inputs labels m o = Ok (m', o', loss) ->
  params_shape m' /\ adam_shape o'.
Proof.
  intros Hm Ho H. pose proof H as H0.
  unfold train_batch in H0.
  apply bind_ok in H0. destruct H0 as [outputs [Ef H0]].
  apply bind_ok in H0. destruct H0 as [l [Ec _]].
  pose proof (forward_ok_shapes _ _ _ Hm Ef) as Fi.
  destruct (forward_columns _ _ _ Ef Hm Fi) as [Fo Lo].
  destruct (same_shape_inv _ _ (criterion_ok_shapes _ _ _ Ec) Fo) as [Ll Fl].
  destruct (train_batch_ok inputs labels m o)
    as (m2 & o2 & out2 & _ & Et & Hm2 & Ho2 & _); try assumption; try congruence.
  rewrite Et in H. inversion H; subst. auto.
Qed.

Lemma evaluate_frame (env env' : Env) :
  evaluate env = Ok env' ->
  weight (model env') = weight (model env)
  /\ bias (model env') = bias (model env)
  /\ weight_grad (model env') = weight_grad (model env)
  /\ bias_grad (model env') = bias_grad (model env)
  /\ optimizer env' = optimizer env
  /\ X env' = X env /\ y env' = y env
  /\ training (model env') = false.
Proof.
  unfold evaluate. intros H.
  apply bind_ok in H. destruct H as [outputs [_ H]].
  apply bind_ok in H. destruct H as [hits [_ H]].
  inversion H; subst. simpl. tauto.
Qed.

(** C5: the parameters of the model are a weight of shape (1, 2) and a
    bias of shape (1).  The constructor creates them with these shapes;
    switching the mode, clearing the gradients, the backward pass, a
    complete training step on any batch, and evaluation keep them; and in a
    run of the notebook they hold after every number of epochs and at
    the end. *)
Theorem parameter_shapes_preserved (src : RandomSource) :
  valid_source src ->
  params_shape (new_classifier n_features (init_draw src))
  /\ (forall m mode, params_shape m -> params_shape (set_training mode m))
  /\ (forall m, params_shape m -> params_shape (zero_grad m))
  /\ (forall m inputs outputs labels,
        params_shape m -> params_shape (backward m inputs outputs labels))
  /\ (forall m o inputs labels m' o' loss,
        params_shape m -> adam_shape o ->
        train_batch inputs labels m o = Ok (m', o', loss) -> params_shape m')
  /\ (forall env env',
        params_shape (model env) -> evaluate env = Ok env' ->
        params_shape (model env'))
  /\ (forall k, (k <= epochs)%nat ->
        exists env, (env0 <- setup src ;; for_epochs src (seq 0 k) env0) = Ok env
                    /\ params_shape (model env))
  /\ exists env, notebook src = Ok env /\ params_shape (model env).
Proof.
  intros Hsrc. splits.
  - split; [apply from_draws_shape | reflexivity].
  - intros m mode H. exact H.
  - intros m H. exact H.
  - intros m inputs outputs labels H. exact H.
  - intros m o inputs labels m' o' loss Hm Ho H.
    exact (proj1 (train_batch_preserves _ _ _ _ _ _ _ Hm Ho H)).
  - intros env env' [Hw Hb] H.
    destruct (evaluate_frame _ _ H) as (Ew & Eb & _).
    unfold params_shape. rewrite Ew, Eb. auto.
  - intros k Hk.
    destruct (setup_ok src) as (env0 & E0 & Hwf0 & _).
    destruct (for_epochs_ok src k 0 env0 Hwf0) as (env & vs & E & Hwf & _).
    { intros e He. apply Hsrc. lia. }
    exists env. rewrite E0, bind_ret. split; [exact E | apply Hwf].
  - destruct (notebook_ok src Hsrc)
      as (env0 & env1 & env2 & l1 & l2 & l3 & l4 & l5 & l6 & l7 & l8 & l9 & l10 & acc
          & _ & _ & _ & En & _ & Hwf1 & _ & _ & _ & Em & _).
    exists env2. split; [exact En|]. rewrite Em. apply Hwf1.
Qed.

Lemma parameter_shapes_preserved_witness :
  params_shape (new_classifier n_features (init_draw plain_source))
  /\ (forall m mode, params_shape m -> params_shape (set_training mode m))
  /\ (forall m, params_shape m -> params_shape (zero_grad m))
  /\ (forall m inputs outputs labels,
        params_shape m -> params_shape (backward m inputs outputs labels))
  /\ (forall m o inputs labels m' o' loss,
        params_shape m -> adam_shape o ->
        train_batch inputs labels m o = Ok (m', o', loss) -> params_shape m')
  /\ (forall env env',
        params_shape (model env) -> evaluate env = Ok env' ->
        params_shape (model env'))
  /\ (forall k, (k <= epochs)%nat ->
        exists env, (env0 <- setup plain_source ;;
                     for_epochs plain_source (seq 0 k) env0) = Ok env
                    /\ params_shape (model env))
  /\ exists env, notebook plain_source = Ok env /\ params_shape (model env).
Proof. apply parameter_shapes_preserved. apply plain_source_valid. Defined.

(** ** Console output (C6) *)

Lemma batch_loop_console (batches : list (list nat)) (env env' : Env) (rl rl' : R) :
  batch_loop batches env rl = Ok (env', rl') -> console env' = console env.
Proof.
  revert env rl. induction batches as [|idx rest IH]; intros env rl H; simpl in H.
  - now inversion H.
  - apply bind_ok in H. destruct H as [[inputs labels] [_ H]].
    apply bind_ok in H. destruct H as [[[m o] loss] [_ H]].
    apply IH in H. exact H.
Qed.

Lemma epoch_body_console (src : RandomSource) (epoch : nat) (env env' : Env) :
  epoch_body src epoch env = Ok env' ->
  if prints epoch
  then exists loss, console env' = console env ++ [LossLine (epoch + 1) epochs loss]
  else console env' = console env.
Proof.
  unfold epoch_body, prints. intros H.
  apply bind_ok in H. destruct H as [[env1 rl] [Hl H]].
  apply batch_loop_console in Hl. simpl in Hl.
  destruct ((epoch + 1) mod 10 =? 0)%nat.
  - cbv zeta in H. destruct (_ =? 0)%nat; [discriminate|].
    inversion H; subst; simpl. eexists. rewrite Hl. reflexivity.
  - inversion H; subst. exact Hl.
Qed.

(** C6: an epoch prints a loss line exactly when (epoch+1) is divisible by
    10 and nothing otherwise, and a run of the notebook leaves on the
    console exactly the ten loss lines of the epochs 10, 20, ..., 100
    followed by one accuracy line. *)
Theorem console_output (src : RandomSource) :
  valid_source src ->
  (forall epoch env env',
     epoch_body src epoch env = Ok env' ->
     if ((epoch + 1) mod 10 =? 0)%nat
     then exists loss, console env' = console env ++ [LossLine (epoch + 1) 100 loss]
     else console env' = console env)
  /\ exists env l1 l2 l3 l4 l5 l6 l7 l8 l9 l10 acc,
       notebook src = Ok env
       /\ console env
          = [LossLine 10 100 l1; LossLine 20 100 l2; LossLine 30 100 l3;
             LossLine 40 100 l4; LossLine 50 100 l5; LossLine 60 100 l6;
             LossLine 70 100 l7; LossLine 80 100 l8; LossLine 90 100 l9;
             LossLine 100 100 l10; AccuracyLine acc].
Proof.
  intros Hsrc. split.
  - intros epoch env env' H. exact (epoch_body_console src epoch env env' H).
  - destruct (notebook_ok src Hsrc)
      as (env0 & env1 & env2 & l1 & l2 & l3 & l4 & l5 & l6 & l7 & l8 & l9 & l10 & acc
          & _ & _ & _ & En & _ & _ & _ & _ & _ & _ & C).
    exists env2, l1, l2, l3, l4, l5, l6, l7, l8, l9, l10, acc. auto.
Qed.

Lemma console_output_witness :
  (forall epoch env env',
     epoch_body plain_source epoch env = Ok env' ->
     if ((epoch + 1) mod 10 =? 0)%nat
     then exists loss, console env' = console env ++ [LossLine (epoch + 1) 100 loss]
     else console env' = console env)
  /\ exists env l1 l2 l3 l4 l5 l6 l7 l8 l9 l10 acc,
       notebook plain_source = Ok env
       /\ console env
          = [LossLine 10 100 l1; LossLine 20 100 l2; LossLine 30 100 l3;
             LossLine 40 100 l4; LossLine 50 100 l5; LossLine 60 100 l6;
             LossLine 70 100 l7; LossLine 80 100 l8; LossLine 90 100 l9;
             LossLine 100 100 l10; AccuracyLine acc].
Proof. apply console_output. apply plain_source_valid. Defined.

(** ** Exceptions (C8) *)

Lemma for_epochs_app (src : RandomSource) (r1 r2 : list nat) (env : Env) :
  for_epochs src (r1 ++ r2) env
  = (env' <- for_epochs src r1 env ;; for_epochs src r2 env').
Proof.
  revert env. induction r1 as [|e r1 IH]; intros env; simpl; [reflexivity|].
  destruct (epoch_body src e env) as [env1|x]; simpl; [apply IH | reflexivity].
Qed.

Lemma batch_loop_app (b1 b2 : list (list nat)) (env : Env) (rl : R) :
  batch_loop (b1 ++ b2) env rl
  = (' (env', rl') <- batch_loop b1 env rl ;; batch_loop b2 env' rl').
Proof.
  revert env rl. induction b1 as [|idx b1 IH]; intros env rl; simpl; [reflexivity|].
  destruct (fetch (X env) (y env) idx) as [[inputs labels]|x]; simpl;
    [|reflexivity].
  destruct (train_batch inputs labels (model env) (optimizer env))
    as [[[m o] loss]|x]; simpl; [apply IH | reflexivity].
Qed.

(** C8: nothing in the notebook catches an exception.  An exception raised
    by a host call inside the loop body ends that body, the pass over the
    batches, the epoch and the training cell; one raised during data
    generation or evaluation ends that cell; and an exception that ends a
    cell ends the run with that same exception. *)
Theorem exceptions_propagate (src : RandomSource) (e : exn) :
  (forall inputs labels m o,
     forward m inputs = Raise e
     \/ (exists outputs, forward m inputs = Ok outputs
                         /\ criterion outputs labels = Raise e) ->
     train_batch inputs labels m o = Raise e)
  /\ (forall done idx rest env rl env' rl',
        batch_loop done env rl = Ok (env', rl') ->
        fetch (X env') (y env') idx = Raise e
        \/ (exists inputs labels,
               fetch (X env') (y env') idx = Ok (inputs, labels)
               /\ train_batch inputs labels (model env') (optimizer env') = Raise e) ->
        batch_loop (done ++ idx :: rest) env rl = Raise e)
  /\ (forall epoch env,
        batch_loop (batch_sampler batch_size (randperm src epoch) [])
          (with_model env (set_training true (model env)) (optimizer env)) 0
        = Raise e ->
        epoch_body src epoch env = Raise e)
  /\ (forall done epoch rest env env',
        for_epochs src done env = Ok env' ->
        epoch_body src epoch env' = Raise e ->
        for_epochs src (done ++ epoch :: rest) env = Raise e)
  /\ (forall env,
        forward (model env) (X env) = Raise e
        \/ (exists outputs,
               forward (model env) (X env) = Ok outputs
               /\ broadcast2 Reqb (float2 (gt_scalar2 outputs 0.5)) (y env) = Raise e) ->
        evaluate env = Raise e)
  /\ (make_data src = Raise e -> setup src = Raise e)
  /\ (setup src = Raise e -> notebook src = Raise e)
  /\ (forall env, setup src = Ok env -> train src env = Raise e ->
                  notebook src = Raise e)
  /\ (forall env env', setup src = Ok env -> train src env = Ok env' ->
                       evaluate env' = Raise e -> notebook src = Raise e).
Proof.
  splits.
  - intros inputs labels m o [H | [outputs [H1 H2]]]; unfold train_batch.
    + now rewrite H.
    + now rewrite H1, bind_ret, H2.
  - intros done idx rest env rl env' rl' Hd H.
    rewrite batch_loop_app, Hd, bind_ret. simpl.
    destruct H as [H | [inputs [labels [H1 H2]]]].
    + now rewrite H.
    + now rewrite H1, bind_ret, H2.
  - intros epoch env H. unfold epoch_body. now rewrite H.
  - intros done epoch rest env env' Hd H.
    rewrite for_epochs_app, Hd, bind_ret. simpl. now rewrite H.
  - intros env H. unfold evaluate.
    change (forward (set_training false (model env)) (X env))
      with (forward (model env) (X env)).
    destruct H as [H | [outputs [H1 H2]]].
    + now rewrite H.
    + now rewrite H1, bind_ret, H2.
  - intros H. unfold setup. now rewrite H.
  - intros H. unfold notebook. now rewrite H.
  - intros env H1 H2. unfold notebook. now rewrite H1, bind_ret, H2.
  - intros env env' H1 H2 H3. unfold notebook.
    now rewrite H1, bind_ret, H2, bind_ret.
Qed.

(** An index outside the data set makes the fetch raise. *)
Lemma fetch_out_of_range (xs ys : tensor2) (i : nat) :
  (length xs <= i)%nat -> fetch xs ys [i] = Raise IndexError.
Proof.
  intros H. apply nth_error_None in H. unfold fetch. simpl. now rewrite H.
Qed.

Lemma train_stray_source (env : Env) :
  well_formed env -> train stray_source env = Raise IndexError.
Proof.
  intros ([[LX _] _] & _).
  unfold train. change (seq 0 epochs) with (0%nat :: seq 1 99).
  cbn [for_epochs]. unfold epoch_body.
  change (batch_sampler batch_size (randperm stray_source 0) [])
    with [[n_samples]].
  cbn [batch_loop with_model X y]. rewrite fetch_out_of_range by lia.
  reflexivity.
Qed.

Lemma exceptions_propagate_witness : notebook stray_source = Raise IndexError.
Proof.
  destruct (setup_ok stray_source) as (env & E & Hwf & _).
  destruct (exceptions_propagate stray_source IndexError)
    as (_ & _ & _ & _ & _ & _ & _ & H & _).
  apply (H env E). apply train_stray_source. exact Hwf.
Defined.

(** A batch with three features per sample is refused by the linear layer. *)
Example forward_shape_mismatch :
  forward (model plain_env) [[1; 1; 1]] = Raise RuntimeError.
Proof. reflexivity. Qed.

(** ** The printed loss (C9) *)

(** *** Numeric facts *)

Lemma sigmoid_increasing (z z' : R) : z < z' -> sigmoid z < sigmoid z'.
Proof.
  intros H. unfold sigmoid.
  pose proof (exp_pos (- z)) as E1. pose proof (exp_pos (- z')) as E2.
  assert (E : exp (- z') < exp (- z)) by (apply exp_increasing; lra).
  unfold Rdiv. rewrite !Rmult_1_l.
  apply Rinv_lt_contravar; [|lra].
  apply Rmult_lt_0_compat; lra.
Qed.

Lemma sigmoid_nonneg_half (z : R) : 0 <= z -> 1 / 2 <= sigmoid z.
Proof.
  intros H. unfold sigmoid.
  assert (E : exp (- z) <= 1).
  { rewrite <- exp_0. destruct H as [H|<-].
    - left. apply exp_increasing. lra.
    - rewrite Ropp_0. lra. }
  pose proof (exp_pos (- z)) as E1.
  unfold Rdiv. rewrite !Rmult_1_l.
  apply Rinv_le_contravar; lra.
Qed.

Lemma exp_minus_100 : exp (- 100) < 1 / 2.
Proof.
  replace (exp (- 100)) with (/ exp 100)
    by (rewrite <- exp_Ropp; f_equal; lra).
  pose proof (exp_ineq1 100) as H.
  assert (H2 : 2 < exp 100) by lra.
  unfold Rdiv. rewrite Rmult_1_l. apply Rinv_lt_contravar; [|lra].
  apply Rmult_lt_0_compat; lra.
Qed.

Lemma bce_term_positive_label (z : R) :
  0 <= z -> bce_term (sigmoid z) 1 = - ln (sigmoid z).
Proof.
  intros H. pose proof (sigmoid_range z) as [Hp _].
  pose proof (sigmoid_nonneg_half z H) as Hh.
  unfold bce_term, clamped_log.
  destruct (Rle_dec (sigmoid z) 0); [lra|].
  assert (L : - 100 < ln (sigmoid z)).
  { rewrite <- (ln_exp (- 100)). apply ln_increasing; [apply exp_pos|].
    pose proof exp_minus_100. lra. }
  rewrite Rmax_left by lra. ring.
Qed.

Lemma bce_decreasing (z z' : R) :
  0 <= z -> z < z' -> bce_term (sigmoid z') 1 < bce_term (sigmoid z) 1.
Proof.
  intros H0 H. rewrite !bce_term_positive_label by lra.
  apply Ropp_lt_contravar, ln_increasing.
  - apply sigmoid_range.
  - now apply sigmoid_increasing.
Qed.

Lemma grad_negative (n : nat) (p : R) :
  (0 < n)%nat -> 0 < p < 1 -> grad_preactivation n p 1 < 0.
Proof.
  intros Hn [H0 H1]. unfold grad_preactivation.
  assert (Hq : 0 < (1 - p) * p) by (apply Rmult_lt_0_compat; lra).
  assert (Hmax : 0 < Rmax ((1 - p) * p) 1e-12).
  { apply Rlt_le_trans with ((1 - p) * p); [assumption | apply Rmax_l]. }
  assert (Hinv : 0 < / INR n) by (apply Rinv_0_lt_compat, lt_0_INR; assumption).
  assert (Hd : (p - 1) / Rmax ((1 - p) * p) 1e-12 < 0).
  { assert (Hi : 0 < / Rmax ((1 - p) * p) 1e-12)
      by (apply Rinv_0_lt_compat; assumption).
    unfold Rdiv. nra. }
  assert (Hd2 : (p - 1) / Rmax ((1 - p) * p) 1e-12 * / INR n < 0) by nra.
  nra.
Qed.

Lemma bias_correction_positive (beta : R) (t : nat) :
  0 <= beta < 1 -> 0 < 1 - beta ^ S t.
Proof.
  intros H. pose proof (pow_lt_1_compat beta (S t) H (Nat.lt_0_succ t)). lra.
Qed.

Lemma adam_update_moves (t : nat) (p m v g : R) :
  m <= 0 -> g < 0 ->
  adam_avg m g < 0
  /\ p < adam_update (S t) p (adam_avg m g, adam_avg_sq v g).
Proof.
  intros Hm Hg.
  assert (Ha : adam_avg m g < 0) by (unfold adam_avg, beta1; nra).
  split; [assumption|].
  unfold adam_update. cbv zeta. simpl fst. simpl snd.
  assert (B1 : 0 < 1 - beta1 ^ S t) by (apply bias_correction_positive; unfold beta1; lra).
  assert (B2 : 0 < 1 - beta2 ^ S t) by (apply bias_correction_positive; unfold beta2; lra).
  assert (S2 : 0 < sqrt (1 - beta2 ^ S t)) by (apply sqrt_lt_R0; assumption).
  assert (D : 0 < sqrt (adam_avg_sq v g) / sqrt (1 - beta2 ^ S t) + eps).
  { pose proof (sqrt_pos (adam_avg_sq v g)) as Sv.
    assert (0 <= sqrt (adam_avg_sq v g) / sqrt (1 - beta2 ^ S t)).
    { unfold Rdiv. apply Rmult_le_pos; [assumption|].
      left. now apply Rinv_0_lt_compat. }
    unfold eps. lra. }
  assert (Q : adam_avg m g / (sqrt (adam_avg_sq v g) / sqrt (1 - beta2 ^ S t) + eps) < 0).
  { assert (Hi : 0 < / (sqrt (adam_avg_sq v g) / sqrt (1 - beta2 ^ S t) + eps))
      by (apply Rinv_0_lt_compat; assumption).
    unfold Rdiv at 1. nra. }
  assert (L : 0 < lr / (1 - beta1 ^ S t)).
  { apply Rdiv_lt_0_compat; [unfold lr; lra | assumption]. }
  nra.
Qed.

(** *** A batch of identical samples *)

Lemma zipWith_repeat {A B C : Type} (f : A -> B -> C) (a : A) (b : B) (n : nat) :
  zipWith f (repeat a n) (repeat b n) = repeat (f a b) n.
Proof. induction n; simpl; congruence. Qed.

Lemma concat_repeat_singleton {A : Type} (a : A) (n : nat) :
  concat (repeat [a] n) = repeat a n.
Proof. induction n; simpl; congruence. Qed.

Lemma sum1_repeat (c : R) (n : nat) : sum1 (repeat c n) = INR n * c.
Proof.
  induction n as [|n IH]; [unfold sum1; simpl; ring|].
  change (repeat c (S n)) with (c :: repeat c n).
  rewrite sum1_cons, IH, S_INR. ring.
Qed.

Lemma mean1_repeat (c : R) (n : nat) : (0 < n)%nat -> mean1 (repeat c n) = c.
Proof.
  intros Hn. unfold mean1. rewrite sum1_repeat, repeat_length.
  field. apply not_0_INR. lia.
Qed.

Lemma row2_eq (x y x' y' : R) : x = x' -> y = y' -> [[x; y]] = [[x'; y']].
Proof. congruence. Qed.

Lemma row1_eq (x x' : R) : x = x' -> [x] = [x'].
Proof. congruence. Qed.

Lemma grad_weight_repeat (n : nat) (g a b : R) :
  fold_left (fun G dx => add2 G (outer (fst dx) (snd dx)))
            (combine (repeat [g] n) (repeat [1; 1] n)) [[a; b]]
  = [[a + INR n * g; b + INR n * g]].
Proof.
  revert a b. induction n as [|n IH]; intros a b.
  - simpl. apply row2_eq; ring.
  - change (repeat [g] (S n)) with ([g] :: repeat [g] n).
    change (repeat [1; 1] (S n)) with ([1; 1] :: repeat [1; 1] n).
    cbn [combine fold_left fst snd]. unfold add2 at 2, add1, outer.
    cbn [map zipWith]. fold add1. fold add2.
    rewrite IH, S_INR. apply row2_eq; ring.
Qed.

Lemma grad_bias_repeat (n : nat) (g a : R) :
  fold_left add1 (repeat [g] n) [a] = [a + INR n * g].
Proof.
  revert a. induction n as [|n IH]; intros a.
  - simpl. apply row1_eq; ring.
  - change (repeat [g] (S n)) with ([g] :: repeat [g] n).
    cbn [fold_left]. unfold add1 at 2. cbn [zipWith]. fold add1.
    rewrite IH, S_INR. apply row1_eq; ring.
Qed.

Lemma plain_train_batch (n : nat) (z : R) (m : LinearClassifier) (o : Adam) :
  (0 < n)%nat -> descending z m o ->
  exists m' o' z',
    forward m (repeat [1; 1] n) = Ok (repeat [sigmoid z] n)
    /\ train_batch (repeat [1; 1] n) (repeat [1] n) m o
       = Ok (m', o', bce_term (sigmoid z) 1)
    /\ descending z' m' o' /\ z < z'
    /\ training m' = training m.
Proof.
  intros Hn (w0 & w1 & b & mw0 & mw1 & mb & vw0 & vw1 & vb
             & Ew & Eb & Emw & Evw & Emb & Evb & Ez & Hmw0 & Hmw1 & Hmb).
  assert (Hz : logit w0 w1 b [1; 1] = z)
    by (unfold logit, dot, sum1; simpl; lra).
  assert (Ef : forward m (repeat [1; 1] n) = Ok (repeat [sigmoid z] n)).
  { rewrite (forward_eq m w0 w1 b) by (auto; apply Forall_repeat; reflexivity).
    now rewrite map_repeat, Hz. }
  assert (Ec : criterion (repeat [sigmoid z] n) (repeat [1] n)
               = Ok (bce_term (sigmoid z) 1)).
  { pose proof (criterion_eq (logit w0 w1 b) (repeat [1; 1] n) (repeat [1] n)) as H.
    rewrite map_repeat, Hz in H. rewrite H.
    - rewrite zipWith_repeat. cbn [zipWith]. rewrite mean2_concat.
      now rewrite concat_repeat_singleton, mean1_repeat.
    - now rewrite !repeat_length.
    - apply Forall_repeat. reflexivity. }
  set (g := grad_preactivation n (sigmoid z) 1).
  assert (Hg : INR n * g < 0).
  { pose proof (grad_negative n (sigmoid z) Hn (sigmoid_range z)).
    pose proof (lt_0_INR n Hn). fold g in H. nra. }
  destruct (adam_update_moves (step (weight_state o)) w0 mw0 vw0 (0 + INR n * g))
    as [A1 A2]; [assumption | lra |].
  destruct (adam_update_moves (step (weight_state o)) w1 mw1 vw1 (0 + INR n * g))
    as [A3 A4]; [assumption | lra |].
  destruct (adam_update_moves (step (bias_state o)) b mb vb (0 + INR n * g))
    as [A5 A6]; [assumption | lra |].
  unfold train_batch. rewrite Ef, bind_ret, Ec, bind_ret.
  unfold backward, zero_grad, adam_step.
  cbn [weight bias weight_grad bias_grad accumulate training].
  unfold numel. rewrite concat_repeat_singleton, repeat_length.
  rewrite zipWith_repeat. cbn [zipWith]. fold g.
  rewrite Ew, Eb. cbn [zeros_like2 zeros_like1 map].
  rewrite grad_weight_repeat, grad_bias_repeat.
  unfold adam_param2, adam_param1. rewrite Emw, Evw, Emb, Evb.
  cbn [zipWith combine fst snd].
  eexists _, _, _. split; [reflexivity|]. split; [reflexivity|].
  split; [|split; [|reflexivity]].
  - unfold descending. cbn [weight bias weight_state bias_state exp_avg exp_avg_sq].
    do 9 eexists. splits; try reflexivity; lra.
  - lra.
Qed.

(** *** The run on [plain_source] *)

Lemma fetched_rows (xs : tensor2) (a : list R) (idx : list nat) (rows : tensor2) :
  Forall (eq a) xs ->
  Forall2 (fun i r => nth_error xs i = Some r) idx rows ->
  rows = repeat a (length idx).
Proof.
  intros Ha H. rewrite Forall_forall in Ha.
  induction H as [|i r idx rows Hi _ IH]; [reflexivity|].
  simpl. rewrite <- IH. f_equal. symmetry. apply Ha.
  eapply nth_error_In; eassumption.
Qed.

Lemma plain_pass (batches : list (list nat)) (env : Env) (rl z : R) :
  shape2 n_samples n_features (X env) -> shape2 n_samples 1 (y env) ->
  Forall (eq [1; 1]) (X env) -> Forall (eq [1]) (y env) ->
  0 <= z -> descending z (model env) (optimizer env) ->
  Forall (fun b => b <> [] /\ Forall (fun i => (i < n_samples)%nat) b) batches ->
  exists env' rl' tr z',
    batch_loop batches env rl = Ok (env', rl')
    /\ batch_trace batches env = Ok tr
    /\ X env' = X env /\ y env' = y env
    /\ z <= z' /\ descending z' (model env') (optimizer env')
    /\ forall u, bce_term (sigmoid z) 1 < u -> strictly_below u (map fst tr).
Proof.
  intros SX Sy FX Fy Hz Hd Hb. revert env rl z SX Sy FX Fy Hz Hd.
  induction Hb as [|idx rest [Hne Hidx] _ IH]; intros env rl z SX Sy FX Fy Hz Hd.
  - exists env, rl, [], z. simpl. splits; auto; lra.
  - destruct (fetch_ok n_samples (X env) (y env) idx SX Sy (conj Hne Hidx))
      as (inputs & labels & Ef & _ & _ & _ & _ & F2x & F2y).
    rewrite (fetched_rows _ _ _ _ FX F2x) in Ef.
    rewrite (fetched_rows _ _ _ _ Fy F2y) in Ef.
    assert (Hn : (0 < length idx)%nat) by (destruct idx; [congruence | simpl; lia]).
    destruct (plain_train_batch (length idx) z (model env) (optimizer env) Hn Hd)
      as (m' & o' & z1 & Efw & Et & Hd1 & Hz1 & _).
    destruct (IH (with_model env m' o') (rl + bce_term (sigmoid z) 1) z1)
      as (env' & rl' & tr & z' & El & Etr & EX & Ey & Hz' & Hd' & Hbelow);
      try assumption; try lra.
    exists env', rl',
      ((bce_term (sigmoid z) 1,
        concat (zipWith (zipWith bce_term) (repeat [sigmoid z] (length idx))
                        (repeat [1] (length idx)))) :: tr), z'.
    simpl batch_loop. simpl batch_trace.
    rewrite Ef, !bind_ret, Efw, Et, !bind_ret, El, Etr, bind_ret.
    splits; try assumption; try reflexivity; try lra.
    intros u Hu. simpl.
    split; [assumption|]. apply Hbelow. apply bce_decreasing; assumption.
Qed.

Lemma plain_state_well_formed (env : Env) : plain_state env -> well_formed env.
Proof.
  intros (SX & Sy & _ & _ & z & _ & Hd).
  destruct Hd as (w0 & w1 & b & mw0 & mw1 & mb & vw0 & vw1 & vb
                  & Ew & Eb & Emw & Evw & Emb & Evb & _).
  unfold well_formed, data_shape, params_shape, adam_shape.
  rewrite Ew, Eb, Emw, Evw, Emb, Evb.
  splits; try assumption; try reflexivity; apply shape_1x2_intro.
Qed.

Lemma plain_batches_ok :
  Forall (fun b => b <> [] /\ Forall (fun i => (i < n_samples)%nat) b)
         (batch_sampler batch_size (seq 0 n_samples) []).
Proof.
  destruct (batch_sampler_100 (seq 0 n_samples))
    as (b1 & b2 & b3 & b4 & EB & _ & L1 & L2 & L3 & L4); [apply length_seq|].
  pose proof (batches_bounded (seq 0 n_samples) n_samples
                (perm_indices_bounded _ _ (Permutation_refl _))) as HB.
  rewrite EB in *. rewrite Forall_forall in HB.
  repeat constructor; try (apply HB; simpl; tauto);
    intros ->; discriminate.
Qed.

(** An epoch of the run on [plain_source]: the four batch losses fall
    strictly. *)
Lemma plain_epoch (src : RandomSource) (epoch : nat) (env : Env) :
  randperm src epoch = seq 0 n_samples ->
  plain_state env ->
  exists env' L1 t1 L2 t2 L3 t3 L4 t4,
    epoch_body src epoch env = Ok env'
    /\ plain_state env'
    /\ batch_trace (batch_sampler batch_size (randperm src epoch) [])
         (with_model env (set_training true (model env)) (optimizer env))
       = Ok [(L1, t1); (L2, t2); (L3, t3); (L4, t4)]
    /\ L2 < L1 /\ L3 < L2 /\ L4 < L3.
Proof.
  intros Hperm HJ. pose proof (plain_state_well_formed env HJ) as Hwf.
  destruct HJ as (SX & Sy & FX & Fy & z & Hz & Hd).
  assert (HP : Permutation (randperm src epoch) (seq 0 n_samples))
    by (rewrite Hperm; apply Permutation_refl).
  destruct (epoch_body_ok src epoch env Hwf HP)
    as (env' & tr' & Ee & Etr' & _ & Elen & _).
  exists env'. pose proof Ee as Ee0. unfold epoch_body in Ee. rewrite Hperm in Ee, Etr'.
  remember (with_model env (set_training true (model env)) (optimizer env))
    as env0 eqn:E0.
  assert (X0 : X env0 = X env) by (rewrite E0; reflexivity).
  assert (Y0 : y env0 = y env) by (rewrite E0; reflexivity).
  assert (M0 : weight (model env0) = weight (model env)
               /\ bias (model env0) = bias (model env)
               /\ optimizer env0 = optimizer env)
    by (rewrite E0; splits; reflexivity).
  assert (Hd0 : descending z (model env0) (optimizer env0)).
  { destruct M0 as (W0 & B0 & O0). unfold descending. rewrite W0, B0, O0.
    exact Hd. }
  rewrite <- X0 in SX, FX. rewrite <- Y0 in Sy, Fy.
  destruct (plain_pass (batch_sampler batch_size (seq 0 n_samples) []) env0 0 z
              SX Sy FX Fy Hz Hd0 plain_batches_ok)
    as (env1 & rl1 & tr & z' & El & Etr & EX & Ey & Hz' & Hd' & Hbelow).
  rewrite Etr in Etr'. inversion Etr'; subst tr'.
  do 5 (destruct tr as [|[? ?] tr]; try discriminate).
  assert (Hu : bce_term (sigmoid z) 1 < bce_term (sigmoid z) 1 + 1) by lra.
  specialize (Hbelow _ Hu). cbn [map fst strictly_below] in Hbelow.
  destruct Hbelow as (_ & B2 & B3 & B4 & _).
  exists r, l, r0, l0, r1, l1, r2, l2.
  split; [exact Ee0|]. rewrite Hperm.
  split; [|split; [exact Etr | splits; assumption]].
  rewrite El, bind_ret in Ee.
  assert (HJ1 : plain_state env1).
  { unfold plain_state. rewrite EX, Ey. splits; try assumption.
    exists z'. split; [lra | assumption]. }
  destruct ((epoch + 1) mod 10 =? 0)%nat;
    [cbv zeta in Ee; destruct (_ =? 0)%nat; [discriminate|]|];
    inversion Ee; subst env'.
  - destruct HJ1 as (J1 & J2 & J3 & J4 & J5).
    unfold plain_state, print. cbn [X y model optimizer]. splits; assumption.
  - exact HJ1.
Qed.
Lemma plain_for_epochs (range : list nat) (env : Env) :
  plain_state env ->
  exists env', for_epochs plain_source range env = Ok env' /\ plain_state env'.
Proof.
  revert env. induction range as [|e range IH]; intros env HJ.
  - exists env. split; [reflexivity | assumption].
  - destruct (plain_epoch plain_source e env eq_refl HJ)
      as (env1 & ? & ? & ? & ? & ? & ? & ? & ? & E & HJ1 & _).
    destruct (IH env1 HJ1) as (env' & E' & HJ').
    exists env'. simpl. rewrite E, bind_ret. auto.
Qed.

Lemma plain_setup :
  exists env, setup plain_source = Ok env /\ plain_state env.
Proof.
  destruct (setup_ok plain_source) as (env & E & Hwf & Ed & Em & Eo & _).
  exists env. split; [exact E|].
  rewrite make_data_eq in Ed.
  assert (EX : from_draws n_samples n_features (normal plain_source) = X env)
    by exact (f_equal (fun r => match r with Ok (a, _) => a | Raise _ => [] end) Ed).
  assert (Ey : map (fun i => [float_of_bool
                   (Rgtb (normal plain_source (i * 2 + 0)%nat
                          + normal plain_source (i * 2 + 1)%nat) 0)])
                   (seq 0 n_samples) = y env)
    by exact (f_equal (fun r => match r with Ok (_, b) => b | Raise _ => [] end) Ed).
  destruct Hwf as ([SX Sy] & _).
  unfold plain_state. splits; try assumption.
  - rewrite <- EX. unfold from_draws. apply Forall_forall. intros r Hr.
    apply in_map_iff in Hr. now destruct Hr as [i [<- _]].
  - rewrite <- Ey. apply Forall_forall. intros r Hr.
    apply in_map_iff in Hr. destruct Hr as [i [<- _]].
    cbn [normal plain_source]. unfold Rgtb.
    destruct (Rgt_dec (1 + 1) 0); [reflexivity | lra].
  - exists 0. split; [lra|]. rewrite Eo, Em. unfold descending.
    exists 0, 0, 0, 0, 0, 0, 0, 0, 0. simpl. splits; try reflexivity; lra.
Qed.

(** *** Mean of batch means against the mean over the samples *)

Lemma sum_of_mean (t : list R) (n : nat) :
  length t = n -> (0 < n)%nat -> sum1 t = INR n * mean1 t.
Proof.
  intros <- Hn. unfold mean1. field. apply not_0_INR. lia.
Qed.

Lemma mean_over_samples (t1 t2 t3 t4 : list R) :
  length t1 = 32%nat -> length t2 = 32%nat ->
  length t3 = 32%nat -> length t4 = 4%nat ->
  mean1 (t1 ++ t2 ++ t3 ++ t4)
  = (32 * mean1 t1 + 32 * mean1 t2 + 32 * mean1 t3 + 4 * mean1 t4) / 100.
Proof.
  intros L1 L2 L3 L4. unfold mean1 at 1.
  rewrite !sum1_app, !length_app, L1, L2, L3, L4.
  rewrite (sum_of_mean t1 32), (sum_of_mean t2 32), (sum_of_mean t3 32),
    (sum_of_mean t4 4) by (assumption || lia).
  replace (INR (32 + (32 + (32 + 4)))) with 100 by (simpl; lra).
  replace (INR 32) with 32 by (simpl; lra).
  replace (INR 4) with 4 by (simpl; lra).
  lra.
Qed.

(** The value an epoch prints, in terms of what its batches compute. *)
Lemma printed_loss (src : RandomSource) (epoch : nat) (env : Env) :
  well_formed env ->
  Permutation (randperm src epoch) (seq 0 n_samples) ->
  prints epoch = true ->
  exists env' L1 t1 L2 t2 L3 t3 L4 t4,
    epoch_body src epoch env = Ok env'
    /\ batch_trace (batch_sampler batch_size (randperm src epoch) [])
         (with_model env (set_training true (model env)) (optimizer env))
       = Ok [(L1, t1); (L2, t2); (L3, t3); (L4, t4)]
    /\ L1 = mean1 t1 /\ L2 = mean1 t2 /\ L3 = mean1 t3 /\ L4 = mean1 t4
    /\ length t1 = 32%nat /\ length t2 = 32%nat
    /\ length t3 = 32%nat /\ length t4 = 4%nat
    /\ console env'
       = console env ++ [LossLine (epoch + 1) 100 ((0 + L1 + L2 + L3 + L4) / 4)].
Proof.
  intros Hwf HP Hpr.
  destruct (epoch_body_ok src epoch env Hwf HP)
    as (env' & tr & Ee & Etr & Hmean & Elen & _ & _ & _ & _ & _ & C).
  fold (prints epoch) in C. rewrite Hpr in C.
  do 5 (destruct tr as [|[? ?] tr]; try discriminate).
  injection Elen as N1 N2 N3 N4.
  inversion Hmean as [|? ? M1 Hmean1]; subst.
  inversion Hmean1 as [|? ? M2 Hmean2]; subst.
  inversion Hmean2 as [|? ? M3 Hmean3]; subst.
  inversion Hmean3 as [|? ? M4 _]; subst.
  exists env', r, l, r0, l0, r1, l1, r2, l2.
  splits; try assumption.
  rewrite C. cbn [map fold_left fst].
  replace (INR 4) with 4 by (simpl; lra). reflexivity.
Qed.

(** C9: an epoch that prints succeeds and prints the sum of the four batch
    losses of that epoch divided by 4, each batch loss being the mean of
    the loss terms of the samples of the batch (32, 32, 32 and 4 terms).
    That value equals the mean of all 100 loss terms exactly when three
    times the loss of the last batch equals the sum of the other three;
    and in the run on [plain_source] the value printed at epoch 10 is
    strictly smaller than the mean of the 100 loss terms. *)
Theorem printed_loss_is_mean_of_batch_means :
  (forall src epoch env,
     well_formed env ->
     Permutation (randperm src epoch) (seq 0 100) ->
     ((epoch + 1) mod 10 =? 0)%nat = true ->
     exists env' L1 t1 L2 t2 L3 t3 L4 t4,
       epoch_body src epoch env = Ok env'
       /\ batch_trace (batch_sampler batch_size (randperm src epoch) [])
            (with_model env (set_training true (model env)) (optimizer env))
          = Ok [(L1, t1); (L2, t2); (L3, t3); (L4, t4)]
       /\ L1 = mean1 t1 /\ L2 = mean1 t2 /\ L3 = mean1 t3 /\ L4 = mean1 t4
       /\ length t1 = 32%nat /\ length t2 = 32%nat
       /\ length t3 = 32%nat /\ length t4 = 4%nat
       /\ console env'
          = console env ++ [LossLine (epoch + 1) 100 ((0 + L1 + L2 + L3 + L4) / 4)]
       /\ ((0 + L1 + L2 + L3 + L4) / 4 = mean1 (t1 ++ t2 ++ t3 ++ t4)
           <-> 3 * L4 = L1 + L2 + L3))
  /\ exists env env' L1 t1 L2 t2 L3 t3 L4 t4,
       (env0 <- setup plain_source ;; for_epochs plain_source (seq 0 9) env0) = Ok env
       /\ epoch_body plain_source 9 env = Ok env'
       /\ batch_trace (batch_sampler batch_size (randperm plain_source 9) [])
            (with_model env (set_training true (model env)) (optimizer env))
          = Ok [(L1, t1); (L2, t2); (L3, t3); (L4, t4)]
       /\ console env' = console env ++ [LossLine 10 100 ((0 + L1 + L2 + L3 + L4) / 4)]
       /\ (0 + L1 + L2 + L3 + L4) / 4 < mean1 (t1 ++ t2 ++ t3 ++ t4).
Proof.
  split.
  - intros src epoch env Hwf HP Hpr.
    destruct (printed_loss src epoch env Hwf HP Hpr)
      as (env' & L1 & t1 & L2 & t2 & L3 & t3 & L4 & t4
          & Ee & Etr & M1 & M2 & M3 & M4 & N1 & N2 & N3 & N4 & C).
    exists env', L1, t1, L2, t2, L3, t3, L4, t4. splits; try assumption.
    rewrite (mean_over_samples t1 t2 t3 t4 N1 N2 N3 N4), <- M1, <- M2, <- M3, <- M4.
    split; intros H; lra.
  - destruct plain_setup as (env0 & E0 & HJ0).
    destruct (plain_for_epochs (seq 0 9) env0 HJ0) as (env & E & HJ).
    destruct (plain_epoch plain_source 9 env eq_refl HJ)
      as (env' & L1 & t1 & L2 & t2 & L3 & t3 & L4 & t4
          & Ee & _ & Etr & B2 & B3 & B4).
    destruct (printed_loss plain_source 9 env (plain_state_well_formed env HJ)
                (Permutation_refl _) eq_refl)
      as (env2 & K1 & s1 & K2 & s2 & K3 & s3 & K4 & s4
          & Ee2 & Etr2 & M1 & M2 & M3 & M4 & N1 & N2 & N3 & N4 & C).
    rewrite Ee in Ee2. injection Ee2 as <-.
    rewrite Etr in Etr2. injection Etr2 as <- <- <- <- <- <- <- <-.
    exists env, env', L1, t1, L2, t2, L3, t3, L4, t4.
    rewrite E0, bind_ret.
    splits; try assumption.
    rewrite (mean_over_samples t1 t2 t3 t4 N1 N2 N3 N4), <- M1, <- M2, <- M3, <- M4.
    lra.
Qed.

Lemma printed_loss_is_mean_of_batch_means_witness :
  exists env' L1 t1 L2 t2 L3 t3 L4 t4,
    epoch_body plain_source 9 plain_env = Ok env'
    /\ batch_trace (batch_sampler batch_size (randperm plain_source 9) [])
         (with_model plain_env (set_training true (model plain_env))
                     (optimizer plain_env))
       = Ok [(L1, t1); (L2, t2); (L3, t3); (L4, t4)]
    /\ L1 = mean1 t1 /\ L2 = mean1 t2 /\ L3 = mean1 t3 /\ L4 = mean1 t4
    /\ length t1 = 32%nat /\ length t2 = 32%nat
    /\ length t3 = 32%nat /\ length t4 = 4%nat
    /\ console env'
       = console plain_env ++ [LossLine (9 + 1) 100 ((0 + L1 + L2 + L3 + L4) / 4)]
    /\ ((0 + L1 + L2 + L3 + L4) / 4 = mean1 (t1 ++ t2 ++ t3 ++ t4)
        <-> 3 * L4 = L1 + L2 + L3).
Proof.
  apply (proj1 printed_loss_is_mean_of_batch_means).
  - apply plain_env_well_formed.
  - apply Permutation_refl.
  - reflexivity.
Defined.

(** ** Evaluation as a state change (C10) *)

(** C10, as stated, fails: in the run on [plain_source] the model is in
    training mode when the evaluation cell starts and in evaluation mode
    when it ends, so the evaluation cell changes the model object. *)
Lemma evaluation_changes_mode :
  exists env env',
    trained plain_source = Ok env /\ evaluate env = Ok env'
    /\ training (model env) = true /\ training (model env') = false
    /\ model env' <> model env
    /\ predicted env = None /\ predicted env' <> None.
Proof.
  destruct (notebook_ok plain_source plain_source_valid)
    as (env0 & env1 & env2 & l1 & l2 & l3 & l4 & l5 & l6 & l7 & l8 & l9 & l10 & acc
        & E0 & E1 & E2 & _ & Hwf0 & Hwf1 & T1 & _ & _ & Em & _).
  destruct (setup_ok plain_source) as (env0' & E0' & _ & _ & _ & _ & P0 & _).
  rewrite E0 in E0'. inversion E0'; subst env0'.
  destruct (train_ok plain_source plain_source_valid env0 Hwf0)
    as (env1' & ? & ? & ? & ? & ? & ? & ? & ? & ? & ? & E1' & _ & G & _).
  rewrite E1 in E1'. inversion E1'; subst env1'.
  destruct G as (_ & _ & P1 & _).
  destruct (evaluate_ok env1 Hwf1) as (outputs & pred & acc' & _ & E2' & _).
  exists env1, env2. unfold trained. rewrite E0, bind_ret.
  splits; try assumption.
  - rewrite Em. reflexivity.
  - rewrite Em. intros H. apply (f_equal training) in H. simpl in H. congruence.
  - congruence.
  - rewrite E2 in E2'. inversion E2'. simpl. discriminate.
Qed.

(** C10, amended: evaluation of a well-formed state succeeds and leaves the
    weight, the bias, their gradients, the optimizer state and the data
    tensors X and y unchanged; what it changes is the mode flag of the
    model, which it sets to evaluation, the variables predicted and
    accuracy, which it binds, and the console, to which it appends the
    accuracy line. *)
Theorem evaluation_frame (env : Env) :
  well_formed env ->
  exists env' pred acc,
    evaluate env = Ok env'
    /\ weight (model env') = weight (model env)
    /\ bias (model env') = bias (model env)
    /\ weight_grad (model env') = weight_grad (model env)
    /\ bias_grad (model env') = bias_grad (model env)
    /\ optimizer env' = optimizer env
    /\ X env' = X env /\ y env' = y env
    /\ training (model env') = false
    /\ predicted env' = Some pred /\ accuracy env' = Some acc
    /\ console env' = console env ++ [AccuracyLine acc].
Proof.
  intros Hwf.
  destruct (evaluate_ok env Hwf) as (outputs & pred & acc & _ & E & _).
  eexists _, pred, acc. split; [exact E|]. simpl. splits; reflexivity.
Qed.

Lemma evaluation_frame_witness :
  exists env' pred acc,
    evaluate plain_env = Ok env'
    /\ weight (model env') = weight (model plain_env)
    /\ bias (model env') = bias (model plain_env)
    /\ weight_grad (model env') = weight_grad (model plain_env)
    /\ bias_grad (model env') = bias_grad (model plain_env)
    /\ optimizer env' = optimizer plain_env
    /\ X env' = X plain_env /\ y env' = y plain_env
    /\ training (model env') = false
    /\ predicted env' = Some pred /\ accuracy env' = Some acc
    /\ console env' = console plain_env ++ [AccuracyLine acc].
Proof. apply evaluation_frame. apply plain_env_well_formed. Defined.

(** * Further properties of the code *)

(** ** The batch sampler on any index list *)

Lemma batch_sampler_count (bs : nat) (l cur : list nat) :
  (length cur < bs)%nat ->
  length (batch_sampler bs l cur) = ((length cur + length l + bs - 1) / bs)%nat.
Proof.
  revert cur. induction l as [|i l IH]; intros cur Hc.
  - simpl. rewrite Nat.add_0_r. destruct cur as [|c cur].
    + simpl. symmetry. apply Nat.div_small. lia.
    + simpl length in *. symmetry.
      replace (S (length cur) + bs - 1)%nat with (length cur + 1 * bs)%nat by lia.
      rewrite Nat.div_add by lia. rewrite Nat.div_small by lia. reflexivity.
  - simpl batch_sampler. rewrite length_app. simpl length.
    destruct (Nat.eqb_spec (length cur + 1) bs) as [E|NE].
    + simpl length. rewrite (IH []) by (simpl; lia). simpl length.
      replace (length cur + S (length l) + bs - 1)%nat
        with (0 + length l + bs - 1 + 1 * bs)%nat by lia.
      rewrite Nat.div_add by lia. lia.
    + rewrite IH by (rewrite length_app; simpl; lia).
      rewrite length_app. simpl length. f_equal. lia.
Qed.

Lemma batch_sampler_sizes (bs : nat) (l cur : list nat) :
  (length cur < bs)%nat ->
  Forall (fun b => b <> [] /\ (length b <= bs)%nat) (batch_sampler bs l cur)
  /\ Forall (fun b => length b = bs) (removelast (batch_sampler bs l cur)).
Proof.
  revert cur. induction l as [|i l IH]; intros cur Hc.
  - destruct cur as [|c cur]; simpl batch_sampler.
    + split; constructor.
    + split; [|constructor]. constructor; [|constructor].
      split; [discriminate | lia].
  - simpl batch_sampler. rewrite length_app. simpl length.
    destruct (Nat.eqb_spec (length cur + 1) bs) as [E|NE].
    + destruct (IH []) as [I1 I2]; [simpl; lia|]. split.
      * constructor; [|assumption]. split; [now destruct cur|].
        rewrite length_app. simpl. lia.
      * destruct (batch_sampler bs l []) as [|b bss] eqn:EB; [constructor|].
        change (removelast ((cur ++ [i]) :: b :: bss))
          with ((cur ++ [i]) :: removelast (b :: bss)).
        constructor; [|assumption]. rewrite length_app. simpl. lia.
    + apply IH. rewrite length_app. simpl. lia.
Qed.

(** X1: the loader cannot be built on a data set without samples (its
    random sampler raises ValueError); on a data set with at least one
    sample, the number of batches one pass over the loader yields is
    [len(dataloader)], the divisor of the printed loss, and it is the
    number of samples divided by 32, rounded up, hence at least 1. *)
Theorem loader_length_is_batch_count (xs ys : list (list R)) (indices : list nat) :
  length indices = length xs ->
  (xs = [] -> dataloader (xs, ys) = Raise ValueError)
  /\ (xs <> [] ->
      dataloader (xs, ys) = Ok (xs, ys)
      /\ length (batch_sampler batch_size indices []) = len_dataloader (length xs)
      /\ (0 < len_dataloader (length xs))%nat
      /\ (length xs <= len_dataloader (length xs) * batch_size)%nat
      /\ (len_dataloader (length xs) * batch_size < length xs + batch_size)%nat).
Proof.
  intros Hlen. split.
  - intros ->. reflexivity.
  - intros Hne.
    assert (Hpos : (0 < length xs)%nat) by (destruct xs; [contradiction | simpl; lia]).
    split; [unfold dataloader; now destruct xs|].
    rewrite <- Hlen in *. unfold len_dataloader, batch_size.
    split; [rewrite batch_sampler_count by (simpl; lia); reflexivity|].
    set (n := length indices) in *.
    pose proof (Nat.div_mod_eq (n + 32 - 1) 32) as H.
    pose proof (Nat.mod_upper_bound (n + 32 - 1) 32) as H2. lia.
Qed.

Lemma loader_length_is_batch_count_witness :
  (([] : list (list R)) = [] -> dataloader ([], []) = Raise ValueError)
  /\ dataloader (repeat [1; 1] 33, repeat [1] 33) = Ok (repeat [1; 1] 33, repeat [1] 33)
  /\ length (batch_sampler batch_size (seq 0 33) []) = 2%nat.
Proof.
  split; [|split].
  - exact (proj1 (loader_length_is_batch_count [] [] [] eq_refl)).
  - apply (loader_length_is_batch_count (repeat [1; 1] 33) (repeat [1] 33) (seq 0 33));
      [reflexivity | discriminate].
  - destruct (proj2 (loader_length_is_batch_count (repeat [1; 1] 33) (repeat [1] 33)
                       (seq 0 33) eq_refl)) as (_ & H & _); [discriminate|].
    exact H.
Defined.

(** X2: for any index list the loader drops and repeats nothing: the
    batches concatenate to the list, none is empty or longer than 32, and
    every batch but the last holds exactly 32 indices. *)
Theorem loader_partitions_indices (indices : list nat) :
  let batches := batch_sampler batch_size indices [] in
  concat batches = indices
  /\ Forall (fun b => b <> [] /\ (length b <= batch_size)%nat) batches
  /\ Forall (fun b => length b = batch_size) (removelast batches).
Proof.
  intros batches. split; [apply batch_sampler_concat|].
  apply batch_sampler_sizes. simpl. unfold batch_size. lia.
Qed.

(** ** The order of a pass *)

(** X16: the shuffling sampler never drops or repeats a sample: whatever
    integers the generator returns, the order [torch.randperm(n)] builds is
    a permutation of 0, ..., n-1, with n entries, none of them twice; hence
    a random source whose orders are built that way is a valid sampler. *)
Theorem sampler_order_is_permutation (n : nat) (raw : nat -> nat) :
  Permutation (torch_randperm n raw) (seq 0 n)
  /\ length (torch_randperm n raw) = n
  /\ NoDup (torch_randperm n raw)
  /\ (forall i, In i (torch_randperm n raw) <-> (i < n)%nat)
  /\ (forall (src : RandomSource) (raws : nat -> nat -> nat),
        (forall e, (e < epochs)%nat ->
                   randperm src e = torch_randperm n_samples (raws e)) ->
        valid_source src).
Proof.
  pose proof (torch_randperm_perm n raw) as HP. splits.
  - exact HP.
  - rewrite (Permutation_length HP). apply length_seq.
  - apply (Permutation_NoDup (Permutation_sym HP)). apply seq_NoDup.
  - intros i. split; intros Hi.
    + apply (Permutation_in _ HP) in Hi. apply in_seq in Hi. lia.
    + apply (Permutation_in _ (Permutation_sym HP)). apply in_seq. lia.
  - intros src raws H e He. rewrite (H e He). apply torch_randperm_perm.
Qed.

Lemma sampler_order_is_permutation_witness :
  Permutation (torch_randperm 5 (fun i => nth i [7; 2; 4; 1] 0)%nat) (seq 0 5)
  /\ valid_source plain_source.
Proof.
  destruct (sampler_order_is_permutation 5 (fun i => nth i [7; 2; 4; 1] 0)%nat)
    as (H1 & _ & _ & _ & H5).
  split; [exact H1|].
  apply (H5 plain_source (fun _ _ => 0%nat)).
  intros e _. vm_compute. reflexivity.
Defined.

(** ** Fetching batches from the generated data *)

Lemma mapM_raises_only {A B : Type} (f : A -> result B) (e : exn) (l : list A) :
  (forall a, In a l -> (exists b, f a = Ok b) \/ f a = Raise e) ->
  Exists (fun a => f a = Raise e) l ->
  mapM f l = Raise e.
Proof.
  intros Hall Hex. induction Hex as [a l Ha | a l _ IH]; simpl.
  - now rewrite Ha.
  - destruct (Hall a (or_introl eq_refl)) as [[b ->] | ->]; [|reflexivity].
    simpl. rewrite IH; [reflexivity|]. intros; apply Hall; now right.
Qed.

Lemma Forall2_common_index {I A B : Type} (P : I -> A -> Prop) (Q : I -> B -> Prop)
  (idx : list I) (la : list A) (lb : list B) :
  Forall2 P idx la -> Forall2 Q idx lb ->
  Forall2 (fun a b => exists i, P i a /\ Q i b) la lb.
Proof.
  intros HP. revert lb. induction HP as [|i a idx la Hi _ IH]; intros lb HQ;
    inversion HQ; subst; constructor; eauto.
Qed.

(** X3: shuffling keeps every sample with its own label.  On the generated
    data, fetching a batch of at least one index, all below 100, succeeds
    and pairs each fetched feature row [(a, b)] with the label 1 if
    [a + b > 0] and 0 otherwise; a batch without indices or with an index
    of 100 or more raises IndexError. *)
Theorem fetched_batches_are_labelled (src : RandomSource) (idx : list nat) :
  exists xs ys,
    make_data src = Ok (xs, ys)
    /\ (idx <> [] -> Forall (fun i => (i < 100)%nat) idx ->
        exists inputs labels,
          fetch xs ys idx = Ok (inputs, labels)
          /\ Forall2 (fun i r => nth_error xs i = Some r) idx inputs
          /\ Forall2 (fun r l => exists a b,
                        r = [a; b] /\ l = [if Rgt_dec (a + b) 0 then 1 else 0])
                     inputs labels)
    /\ (idx = [] \/ Exists (fun i => (100 <= i)%nat) idx ->
        fetch xs ys idx = Raise IndexError).
Proof.
  eexists _, _. split; [apply make_data_eq|].
  set (xs := from_draws n_samples n_features (normal src)).
  set (ys := map _ (seq 0 n_samples)).
  assert (Sx : shape2 n_samples n_features xs) by apply from_draws_shape.
  assert (Sy : shape2 n_samples 1 ys).
  { split; [unfold ys; now rewrite length_map, length_seq|].
    apply Forall_forall; intros r Hr. apply in_map_iff in Hr.
    now destruct Hr as [i [<- _]]. }
  split.
  - intros Hne Hidx.
    destruct (fetch_ok n_samples xs ys idx Sx Sy (conj Hne Hidx))
      as (inputs & labels & Ef & _ & _ & _ & _ & F1 & F2).
    exists inputs, labels. split; [exact Ef|]. split; [exact F1|].
    pose proof (Forall2_common_index _ _ _ _ _ F1 F2) as F.
    eapply Forall2_impl; [|exact F].
    intros r l [i [Hr Hl]].
    assert (Hi : (i < n_samples)%nat).
    { destruct (Nat.lt_ge_cases i n_samples) as [Hlt|Hge]; [assumption|].
      destruct Sx as [Lx _]. rewrite <- Lx in Hge.
      apply nth_error_None in Hge. simpl in Hr. congruence. }
    unfold xs in Hr. rewrite from_draws_nth_error in Hr by assumption.
    unfold ys in Hl. rewrite nth_error_map, nth_error_seq in Hl.
    destruct (Nat.ltb_spec i n_samples); [|lia]. simpl in Hr, Hl.
    inversion Hr; subst r. inversion Hl; subst l.
    eexists _, _. split; [reflexivity|].
    unfold Rgtb, float_of_bool. now destruct (Rgt_dec _ _).
  - intros [-> | Hex]; [reflexivity|]. unfold fetch.
    rewrite (mapM_raises_only _ IndexError); [reflexivity | |].
    + intros i _. destruct (nth_error xs i); [|now right].
      destruct (nth_error ys i); [left; eauto | now right].
    + eapply Exists_impl; [|exact Hex]. intros i Hi. simpl in Hi.
      assert (E : nth_error xs i = None).
      { apply nth_error_None. destruct Sx as [-> _]. exact Hi. }
      now rewrite E.
Qed.

Lemma fetched_batches_are_labelled_witness :
  (exists xs ys,
     make_data plain_source = Ok (xs, ys)
     /\ exists inputs labels,
          fetch xs ys [7; 3]%nat = Ok (inputs, labels)
          /\ Forall2 (fun i r => nth_error xs i = Some r) [7; 3]%nat inputs
          /\ Forall2 (fun r l => exists a b,
                        r = [a; b] /\ l = [if Rgt_dec (a + b) 0 then 1 else 0])
                     inputs labels)
  /\ (exists xs ys,
        make_data plain_source = Ok (xs, ys)
        /\ fetch xs ys [7; 100]%nat = Raise IndexError)
  /\ (exists xs ys,
        make_data plain_source = Ok (xs, ys)
        /\ fetch xs ys [] = Raise IndexError).
Proof.
  split; [|split].
  - destruct (fetched_batches_are_labelled plain_source [7; 3]%nat)
      as (xs & ys & E & H & _).
    exists xs, ys. split; [exact E|]. apply H; [discriminate|].
    constructor; [lia|]. constructor; [lia|]. constructor.
  - destruct (fetched_batches_are_labelled plain_source [7; 100]%nat)
      as (xs & ys & E & _ & H).
    exists xs, ys. split; [exact E|]. apply H. right.
    apply Exists_cons_tl. apply Exists_cons_hd. lia.
  - destruct (fetched_batches_are_labelled plain_source [])
      as (xs & ys & E & _ & H).
    exists xs, ys. split; [exact E|]. apply H. now left.
Defined.

(** ** The forward pass *)

(** X5: on a model with a weight of shape (1, 2), the forward pass on a
    batch of at least one row, every row with [c] features, succeeds with
    one output per row when [c = 2], and raises RuntimeError otherwise. *)
Theorem forward_shape_check (m : LinearClassifier) (x : list (list R)) (c : nat) :
  params_shape m ->
  x <> [] ->
  Forall (fun r => length r = c) x ->
  (c = 2%nat ->
   exists outputs, forward m x = Ok outputs /\ shape2 (length x) 1 outputs)
  /\ (c <> 2%nat -> forward m x = Raise RuntimeError).
Proof.
  intros Hm Hne Hx. pose proof Hm as [Hw Hb].
  apply shape_1x2 in Hw. destruct Hw as [w0 [w1 Ew]].
  apply length_1 in Hb. destruct Hb as [b Eb].
  split.
  - intros ->.
    eexists. split; [apply (forward_eq m w0 w1 b); assumption|].
    split; [now rewrite length_map|].
    apply Forall_forall. intros r Hr. apply in_map_iff in Hr.
    now destruct Hr as [row [<- _]].
  - intros Hc. destruct x as [|row x]; [contradiction|].
    inversion Hx as [|? ? Hrow _]; subst.
    unfold forward, linear. rewrite Ew, Eb. cbn [combine mapM].
    unfold linear_unit at 1. cbn [fst snd length].
    destruct (Nat.eqb_spec (length row) 2); [contradiction | reflexivity].
Qed.

Lemma forward_shape_check_witness :
  (exists outputs,
     forward (model plain_env) [[1; 1]; [2; 3]] = Ok outputs
     /\ shape2 (length [[1; 1]; [2; 3]]) 1 outputs)
  /\ forward (model plain_env) [[1; 1; 1]; [2; 3; 4]] = Raise RuntimeError.
Proof.
  split.
  - apply (forward_shape_check (model plain_env) [[1; 1]; [2; 3]] 2).
    + apply plain_env_well_formed.
    + discriminate.
    + constructor; [reflexivity|]. constructor; [reflexivity|]. constructor.
    + reflexivity.
  - apply (forward_shape_check (model plain_env) [[1; 1; 1]; [2; 3; 4]] 3).
    + apply plain_env_well_formed.
    + discriminate.
    + constructor; [reflexivity|]. constructor; [reflexivity|]. constructor.
    + discriminate.
Defined.

(** ** The accuracy *)

Lemma matches_bound (pred labels : list (list R)) :
  (matches pred labels <= length labels)%nat.
Proof.
  unfold matches.
  eapply Nat.le_trans; [apply filter_length_le|].
  rewrite length_combine. apply Nat.le_min_r.
Qed.

(** X8: the accuracy the evaluation cell stores and prints is a number of
    hundredths between 0 and 1: it is [k / 100] for a natural number
    [k <= 100]. *)
Theorem accuracy_is_a_fraction (env : Env) :
  well_formed env ->
  exists env' acc k,
    evaluate env = Ok env'
    /\ accuracy env' = Some acc
    /\ console env' = console env ++ [AccuracyLine acc]
    /\ acc = INR k / 100 /\ (k <= 100)%nat /\ 0 <= acc <= 1.
Proof.
  intros Hwf. pose proof Hwf as ([_ [Ly _]] & _).
  destruct (evaluate_ok env Hwf) as (outputs & pred & acc & _ & Ee & _ & _ & Ea).
  pose proof (matches_bound pred (y env)) as Hk. rewrite Ly in Hk.
  unfold n_samples in Hk.
  eexists _, acc, (matches pred (y env)).
  split; [exact Ee|]. splits; try reflexivity; try assumption.
  - rewrite Ea. apply Rmult_le_pos; [apply pos_INR | lra].
  - rewrite Ea. apply le_INR in Hk.
    replace (INR 100) with 100 in Hk by (simpl; lra). lra.
Qed.

Lemma accuracy_is_a_fraction_witness :
  exists env' acc k,
    evaluate plain_env = Ok env'
    /\ accuracy env' = Some acc
    /\ console env' = console plain_env ++ [AccuracyLine acc]
    /\ acc = INR k / 100 /\ (k <= 100)%nat /\ 0 <= acc <= 1.
Proof. apply accuracy_is_a_fraction. apply plain_env_well_formed. Defined.

(** X9: running the evaluation cell a second time changes nothing but the
    console: it succeeds again, computes the same predictions and the same
    accuracy, leaves the model in evaluation mode, and prints the same
    accuracy line once more. *)
Theorem evaluation_can_be_repeated (env : Env) :
  well_formed env ->
  exists env1 env2 acc,
    evaluate env = Ok env1 /\ evaluate env1 = Ok env2
    /\ model env2 = model env1 /\ optimizer env2 = optimizer env1
    /\ X env2 = X env1 /\ y env2 = y env1
    /\ predicted env2 = predicted env1
    /\ accuracy env1 = Some acc /\ accuracy env2 = Some acc
    /\ console env2 = console env ++ [AccuracyLine acc; AccuracyLine acc].
Proof.
  intros Hwf.
  destruct (evaluate_ok env Hwf) as (outputs & pred & acc & Ef & Ee & _ & Ep & Ea).
  eexists _, _, acc. split; [exact Ee|].
  pose proof Ee as Ee'. unfold evaluate in Ee'.
  change (forward (set_training false (model env)) (X env))
    with (forward (model env) (X env)) in Ee'.
  rewrite Ef, bind_ret in Ee'.
  destruct (broadcast2 Reqb (float2 (gt_scalar2 outputs 0.5)) (y env))
    as [hits|e] eqn:Eh; [|discriminate].
  rewrite bind_ret in Ee'. injection Ee' as E1 E2.
  split.
  - unfold evaluate. cbn [X y model optimizer console].
    change (forward (set_training false (set_training false (model env))) (X env))
      with (forward (model env) (X env)).
    rewrite Ef, bind_ret, Eh, bind_ret. rewrite E2. reflexivity.
  - cbn [X y model optimizer predicted accuracy console].
    rewrite E1, <- app_assoc. splits; reflexivity.
Qed.

Lemma evaluation_can_be_repeated_witness :
  exists env1 env2 acc,
    evaluate plain_env = Ok env1 /\ evaluate env1 = Ok env2
    /\ model env2 = model env1 /\ optimizer env2 = optimizer env1
    /\ X env2 = X env1 /\ y env2 = y env1
    /\ predicted env2 = predicted env1
    /\ accuracy env1 = Some acc /\ accuracy env2 = Some acc
    /\ console env2 = console plain_env ++ [AccuracyLine acc; AccuracyLine acc].
Proof. apply evaluation_can_be_repeated. apply plain_env_well_formed. Defined.

(** ** What training touches *)

Lemma train_batch_mode (inputs labels : list (list R)) (m m' : LinearClassifier)
  (o o' : Adam) (loss : R) :
  train_batch inputs labels m o = Ok (m', o', loss) -> training m' = training m.
Proof.
  unfold train_batch. intros H.
  apply bind_ok in H. destruct H as [outputs [_ H]].
  apply bind_ok in H. destruct H as [l [_ H]].
  unfold adam_step in H.
  destruct (weight_grad _) in H; destruct (bias_grad _) in H;
    repeat match type of H with
           | context [adam_param2 ?a ?b ?c] => destruct (adam_param2 a b c)
           | context [adam_param1 ?a ?b ?c] => destruct (adam_param1 a b c)
           end;
    inversion H; reflexivity.
Qed.

Lemma batch_loop_frame (batches : list (list nat)) (env env' : Env) (rl rl' : R) :
  batch_loop batches env rl = Ok (env', rl') ->
  same_globals env env' /\ console env' = console env
  /\ training (model env') = training (model env).
Proof.
  revert env rl. induction batches as [|idx rest IH]; intros env rl H; simpl in H.
  - inversion H; subst. unfold same_globals. splits; reflexivity.
  - apply bind_ok in H. destruct H as [[inputs labels] [_ H]].
    apply bind_ok in H. destruct H as [[[m o] loss] [Ht H]].
    apply IH in H. destruct H as ((G1 & G2 & G3 & G4) & C & T).
    apply train_batch_mode in Ht. simpl in *.
    unfold same_globals. splits; congruence.
Qed.

Lemma epoch_body_frame (src : RandomSource) (epoch : nat) (env env' : Env) :
  epoch_body src epoch env = Ok env' ->
  same_globals env env' /\ training (model env') = true.
Proof.
  unfold epoch_body. intros H.
  apply bind_ok in H. destruct H as [[env1 rl] [Hl H]].
  apply batch_loop_frame in Hl. destruct Hl as ((G1 & G2 & G3 & G4) & _ & T).
  simpl in G1, G2, G3, G4, T.
  assert (E : same_globals env env1 /\ training (model env1) = true)
    by (unfold same_globals; splits; assumption).
  destruct ((epoch + 1) mod 10 =? 0)%nat.
  - cbv zeta in H. destruct (_ =? 0)%nat; [discriminate|].
    inversion H; subst. exact E.
  - inversion H; subst. exact E.
Qed.

Lemma for_epochs_frame (src : RandomSource) (range : list nat) (env env' : Env) :
  for_epochs src range env = Ok env' ->
  same_globals env env'
  /\ (exists ls, console env' = console env ++ ls /\ Forall is_loss_line ls)
  /\ (range <> [] -> training (model env') = true).
Proof.
  revert env. induction range as [|e range IH]; intros env H; simpl in H.
  - inversion H; subst. unfold same_globals. splits; try reflexivity.
    + exists []. now rewrite app_nil_r.
    + congruence.
  - apply bind_ok in H. destruct H as [env1 [He H]].
    pose proof (epoch_body_frame _ _ _ _ He) as ((G1 & G2 & G3 & G4) & T1).
    pose proof (epoch_body_console _ _ _ _ He) as C1.
    destruct (IH _ H) as ((H1 & H2 & H3 & H4) & (ls & C & Fl) & T).
    unfold same_globals. splits; try congruence.
    + destruct (prints e).
      * destruct C1 as [loss C1]. exists (LossLine (e + 1) epochs loss :: ls).
        rewrite C, C1, <- app_assoc. split; [reflexivity|].
        constructor; [exact I | assumption].
      * exists ls. rewrite C, C1. auto.
    + intros _. destruct range as [|e' range]; [|apply T; discriminate].
      simpl in H. inversion H; subst. exact T1.
Qed.

(** X10: training never touches the data: whenever the training cell
    returns, the tensors X and y and the variables of the evaluation cell
    are what they were, the console has only gained loss lines, and the
    model is in training mode; and on a well-formed state with a valid
    sampler the cell does return. *)
Theorem training_leaves_data_alone (src : RandomSource) (env : Env) :
  match train src env with
  | Ok env' =>
      X env' = X env /\ y env' = y env
      /\ predicted env' = predicted env /\ accuracy env' = accuracy env
      /\ training (model env') = true
      /\ exists ls, console env' = console env ++ ls /\ Forall is_loss_line ls
  | Raise _ => True
  end
  /\ (valid_source src -> well_formed env -> exists env', train src env = Ok env').
Proof.
  split.
  - destruct (train src env) as [env'|e] eqn:E; [|exact I].
    unfold train in E. apply for_epochs_frame in E.
    destruct E as ((G1 & G2 & G3 & G4) & C & T).
    splits; try assumption. apply T. discriminate.
  - intros Hsrc Hwf.
    destruct (train_ok src Hsrc env Hwf) as (env' & ? & ? & ? & ? & ? & ? & ? & ? & ? & ? & E & _).
    eauto.
Qed.

Lemma training_leaves_data_alone_witness :
  exists env', train plain_source plain_env = Ok env'.
Proof.
  apply (proj2 (training_leaves_data_alone plain_source plain_env)).
  - apply plain_source_valid.
  - apply plain_env_well_formed.
Defined.

(** X11: gradients do not pile up from batch to batch.  The backward pass
    alone adds to a gradient that is already stored, but the loop body
    clears the gradients first: one training step, and hence a pass over
    at least one batch, gives the same result whatever gradients the model
    holds when it starts. *)
Theorem stale_gradients_are_ignored (env : Env)
  (gw : option (list (list R))) (gb : option (list R)) :
  (forall inputs labels,
     train_batch inputs labels (with_grads (model env) gw gb) (optimizer env)
     = train_batch inputs labels (model env) (optimizer env))
  /\ (forall batches rl,
        batches <> [] ->
        batch_loop batches
          (with_model env (with_grads (model env) gw gb) (optimizer env)) rl
        = batch_loop batches env rl)
  /\ (forall inputs outputs labels g0 g,
        weight_grad (model env) = Some g0 ->
        weight_grad (backward (zero_grad (model env)) inputs outputs labels) = Some g ->
        weight_grad (backward (model env) inputs outputs labels) = Some (add2 g0 g)).
Proof.
  splits.
  - reflexivity.
  - intros [|idx rest] rl Hne; [congruence|]. simpl.
    destruct (fetch (X env) (y env) idx) as [[inputs labels]|e]; [|reflexivity].
    rewrite !bind_ret.
    change (train_batch inputs labels (with_grads (model env) gw gb) (optimizer env))
      with (train_batch inputs labels (model env) (optimizer env)).
    destruct (train_batch inputs labels (model env) (optimizer env))
      as [[[m o] loss]|e]; reflexivity.
  - intros inputs outputs labels g0 g H0 H. simpl in H |- *. rewrite H0. simpl.
    injection H as <-. reflexivity.
Qed.

Lemma stale_gradients_are_ignored_witness :
  batch_loop [[0%nat]]
    (with_model plain_env
       (with_grads (model plain_env) (Some [[5; 5]]) (Some [5]))
       (optimizer plain_env)) 0
  = batch_loop [[0%nat]] plain_env 0.
Proof.
  apply (proj1 (proj2 (stale_gradients_are_ignored plain_env
                         (Some [[5; 5]]) (Some [5])))).
  discriminate.
Defined.

(** X12: the optimizer has taken four steps on each parameter per epoch:
    after k epochs of a run, k from 0 to 100, both step counters are 4k,
    and they are 400 at the end, after evaluation. *)
Theorem optimizer_step_count (src : RandomSource) :
  valid_source src ->
  (forall k, (k <= epochs)%nat ->
     exists env,
       (env0 <- setup src ;; for_epochs src (seq 0 k) env0) = Ok env
       /\ step (weight_state (optimizer env)) = (4 * k)%nat
       /\ step (bias_state (optimizer env)) = (4 * k)%nat)
  /\ exists env,
       notebook src = Ok env
       /\ step (weight_state (optimizer env)) = 400%nat
       /\ step (bias_state (optimizer env)) = 400%nat.
Proof.
  intros Hsrc. split.
  - intros k Hk.
    destruct (setup_ok src) as (env0 & E0 & Hwf0 & _ & Em & Eo & _).
    destruct (for_epochs_ok src k 0 env0 Hwf0)
      as (env & vs & E & _ & _ & _ & Sw & Sb & _).
    { intros e He. apply Hsrc. lia. }
    exists env. rewrite E0, bind_ret. rewrite Eo in Sw, Sb. simpl in Sw, Sb.
    auto.
  - destruct (notebook_ok src Hsrc)
      as (env0 & env1 & env2 & l1 & l2 & l3 & l4 & l5 & l6 & l7 & l8 & l9 & l10 & acc
          & _ & _ & E2 & En & _ & _ & _ & Sw & Sb & _).
    destruct (evaluate_frame _ _ E2) as (_ & _ & _ & _ & Eo & _).
    exists env2. rewrite Eo. auto.
Qed.

Lemma optimizer_step_count_witness :
  (forall k, (k <= epochs)%nat ->
     exists env,
       (env0 <- setup plain_source ;; for_epochs plain_source (seq 0 k) env0) = Ok env
       /\ step (weight_state (optimizer env)) = (4 * k)%nat
       /\ step (bias_state (optimizer env)) = (4 * k)%nat)
  /\ exists env,
       notebook plain_source = Ok env
       /\ step (weight_state (optimizer env)) = 400%nat
       /\ step (bias_state (optimizer env)) = 400%nat.
Proof. apply optimizer_step_count. apply plain_source_valid. Defined.

(** X13: the cells before the training loop never raise: for every random
    source the assertion of the data set holds, and the loop starts from
    100 samples of 2 features with their 100 labels, a model in training
    mode whose weight and bias are the first three initial draws and which
    holds no gradient, an optimizer that has taken no step and whose
    moment estimates are zero, and an empty console. *)
Theorem setup_succeeds (src : RandomSource) :
  exists env,
    setup src = Ok env
    /\ shape2 100 2 (X env) /\ shape2 100 1 (y env)
    /\ weight (model env) = [[init_draw src 0%nat; init_draw src 1%nat]]
    /\ bias (model env) = [init_draw src 2%nat]
    /\ weight_grad (model env) = None /\ bias_grad (model env) = None
    /\ training (model env) = true
    /\ optimizer env
       = {| weight_state := {| step := 0; exp_avg := [[0; 0]]; exp_avg_sq := [[0; 0]] |};
            bias_state := {| step := 0; exp_avg := [0]; exp_avg_sq := [0] |} |}
    /\ predicted env = None /\ accuracy env = None /\ console env = [].
Proof.
  destruct (setup_ok src) as (env & E & ([SX Sy] & _) & _ & Em & Eo & P & A & C).
  exists env. rewrite Eo, Em. splits; try assumption; reflexivity.
Qed.

(** ** The range of the printed numbers *)

Lemma clamped_log_bounds (p : R) : 0 < p < 1 -> -100 <= clamped_log p <= 0.
Proof.
  intros [H0 H1]. unfold clamped_log. destruct (Rle_dec p 0); [lra|].
  assert (L : ln p < 0) by (rewrite <- ln_1; apply ln_increasing; lra).
  split; [apply Rmax_r | apply Rmax_lub; lra].
Qed.

Lemma bce_term_bounds (p t : R) :
  0 < p < 1 -> 0 <= t <= 1 -> 0 <= bce_term p t <= 100.
Proof.
  intros Hp Ht. unfold bce_term.
  pose proof (clamped_log_bounds p Hp) as A.
  pose proof (clamped_log_bounds (1 - p)) as B.
  assert (B' : -100 <= clamped_log (1 - p) <= 0) by (apply B; lra).
  split; nra.
Qed.

Lemma sum1_bounds (l : list R) (c : R) :
  Forall (fun t => 0 <= t <= c) l -> 0 <= sum1 l <= c * INR (length l).
Proof.
  induction 1 as [|t l Ht _ IH].
  - unfold sum1. simpl. lra.
  - rewrite sum1_cons. change (length (t :: l)) with (S (length l)).
    rewrite S_INR. lra.
Qed.

Lemma mean1_bounds (l : list R) (c : R) :
  l <> [] -> Forall (fun t => 0 <= t <= c) l -> 0 <= mean1 l <= c.
Proof.
  intros Hne HF. pose proof (sum1_bounds l c HF) as [S0 S1].
  assert (Hn : 0 < INR (length l)).
  { apply lt_0_INR. destruct l; [congruence | simpl; lia]. }
  unfold mean1. split.
  - apply Rmult_le_pos; [assumption|]. left. now apply Rinv_0_lt_compat.
  - apply Rmult_le_reg_r with (INR (length l)); [assumption|].
    unfold Rdiv. rewrite Rmult_assoc, Rinv_l by lra. lra.
Qed.

Lemma loss_terms_bounded (f : list R -> R) (inputs labels : list (list R)) :
  binary_labels labels ->
  Forall (fun t => 0 <= t <= 100)
    (concat (zipWith (zipWith bce_term)
                     (map (fun row => [sigmoid (f row)]) inputs) labels)).
Proof.
  intros HB. revert inputs. induction HB as [|l labels Hl _ IH]; intros [|r inputs];
    simpl; try constructor.
  apply Forall_app. split; [|apply IH].
  destruct Hl as [-> | ->]; simpl; constructor; try constructor;
    apply bce_term_bounds; try apply sigmoid_range; lra.
Qed.

Lemma fetched_labels_binary (ys : list (list R)) (idx : list nat)
  (labels : list (list R)) :
  binary_labels ys ->
  Forall2 (fun i r => nth_error ys i = Some r) idx labels ->
  binary_labels labels.
Proof.
  intros HB HF. unfold binary_labels in *. rewrite Forall_forall in HB.
  induction HF as [|i r idx labels Hi _ IH]; constructor; [|assumption].
  apply HB. eapply nth_error_In; eassumption.
Qed.

Lemma batch_trace_bounded (batches : list (list nat)) (env : Env)
  (tr : list (R * list R)) :
  well_formed env -> binary_labels (y env) ->
  Forall (fun b => b <> [] /\ Forall (fun i => (i < n_samples)%nat) b) batches ->
  batch_trace batches env = Ok tr ->
  Forall (fun lt => Forall (fun t => 0 <= t <= 100) (snd lt)) tr.
Proof.
  intros Hwf HB Hb. revert env tr Hwf HB.
  induction Hb as [|idx rest Hidx _ IH]; intros env tr Hwf HB H; simpl in H.
  - inversion H. constructor.
  - destruct Hwf as ([SX Sy] & Hm & Ho).
    destruct (fetch_ok n_samples (X env) (y env) idx SX Sy Hidx)
      as (inputs & labels & Ef & Fi & Fl & Li & Ll & _ & F2).
    rewrite Ef, bind_ret in H.
    pose proof Hm as [Hw Hbias].
    apply shape_1x2 in Hw. destruct Hw as [w0 [w1 Ew]].
    apply length_1 in Hbias. destruct Hbias as [b Eb].
    rewrite (forward_eq (model env) w0 w1 b) in H by assumption.
    rewrite bind_ret in H.
    apply bind_ok in H. destruct H as [[[m o] loss] [Ht H]].
    apply bind_ok in H. destruct H as [tr' [Htr H]].
    inversion H; subst tr. clear H.
    destruct (train_batch_preserves _ _ _ _ _ _ _ Hm Ho Ht) as [Hm' Ho'].
    constructor.
    + simpl. apply loss_terms_bounded.
      eapply fetched_labels_binary; eassumption.
    + apply (IH (with_model env m o)); [|exact HB|exact Htr].
      unfold well_formed, data_shape. simpl. tauto.
Qed.

Lemma epoch_prints_in_range (src : RandomSource) (epoch : nat) (env : Env) :
  well_formed env -> binary_labels (y env) ->
  Permutation (randperm src epoch) (seq 0 n_samples) ->
  exists env' ls,
    epoch_body src epoch env = Ok env'
    /\ well_formed env' /\ y env' = y env
    /\ console env' = console env ++ ls
    /\ Forall line_in_range ls.
Proof.
  intros Hwf HB HP.
  destruct (epoch_body_ok src epoch env Hwf HP)
    as (env' & tr & Ee & Etr & Hmean & Elen & Hwf' & (_ & Gy & _) & _ & _ & _ & C).
  assert (Hwf0 : well_formed
                   (with_model env (set_training true (model env)) (optimizer env))).
  { destruct Hwf as (H1 & H2 & H3). unfold well_formed, data_shape, params_shape.
    simpl. tauto. }
  pose proof (batch_trace_bounded _ _ _ Hwf0 HB
                (batches_bounded _ _ (perm_indices_bounded _ _ HP)) Etr) as Hbd.
  exists env'. eexists. split; [exact Ee|]. split; [exact Hwf'|].
  split; [exact Gy|]. split; [exact C|].
  destruct ((epoch + 1) mod 10 =? 0)%nat; [|constructor].
  constructor; [|constructor]. simpl.
  do 5 (destruct tr as [|[? ?] tr]; try discriminate).
  injection Elen as N1 N2 N3 N4.
  assert (B : forall L t n, L = mean1 t -> length t = n -> (0 < n)%nat ->
                            Forall (fun v => 0 <= v <= 100) t -> 0 <= L <= 100).
  { intros L t n -> Hl Hn HF. apply mean1_bounds; [|assumption].
    intros ->. simpl in Hl. lia. }
  inversion Hmean as [|? ? M1 Hmean1]; subst.
  inversion Hmean1 as [|? ? M2 Hmean2]; subst.
  inversion Hmean2 as [|? ? M3 Hmean3]; subst.
  inversion Hmean3 as [|? ? M4 _]; subst.
  inversion Hbd as [|? ? D1 Hbd1]; subst.
  inversion Hbd1 as [|? ? D2 Hbd2]; subst.
  inversion Hbd2 as [|? ? D3 Hbd3]; subst.
  inversion Hbd3 as [|? ? D4 _]; subst.
  simpl in *.
  pose proof (B _ _ _ M1 N1 ltac:(lia) D1).
  pose proof (B _ _ _ M2 N2 ltac:(lia) D2).
  pose proof (B _ _ _ M3 N3 ltac:(lia) D3).
  pose proof (B _ _ _ M4 N4 ltac:(lia) D4).
  replace (0 + 1 + 1 + 1 + 1) with 4 by lra. lra.
Qed.

Lemma epochs_print_in_range (src : RandomSource) (n a : nat) (env : Env) :
  well_formed env -> binary_labels (y env) ->
  (forall e, (a <= e < a + n)%nat -> Permutation (randperm src e) (seq 0 n_samples)) ->
  exists env' ls,
    for_epochs src (seq a n) env = Ok env'
    /\ well_formed env'
    /\ console env' = console env ++ ls
    /\ Forall line_in_range ls.
Proof.
  revert a env. induction n as [|n IH]; intros a env Hwf HB HP.
  - exists env, []. simpl. rewrite app_nil_r. auto.
  - destruct (epoch_prints_in_range src a env Hwf HB)
      as (env1 & ls1 & E1 & Hwf1 & Ey & C1 & F1); [apply HP; lia|].
    destruct (IH (S a) env1 Hwf1) as (env2 & ls2 & E2 & Hwf2 & C2 & F2).
    { now rewrite Ey. }
    { intros e He. apply HP. lia. }
    exists env2, (ls1 ++ ls2). simpl. rewrite E1, bind_ret.
    splits; try assumption.
    + rewrite C2, C1. now rewrite app_assoc.
    + apply Forall_app. auto.
Qed.

Lemma generated_labels_binary (src : RandomSource) (env : Env) :
  setup src = Ok env -> binary_labels (y env).
Proof.
  intros E. destruct (setup_ok src) as (env' & E' & _ & Ed & _).
  rewrite E in E'. injection E' as <-.
  rewrite make_data_eq in Ed.
  assert (Ey : map (fun i => [float_of_bool
                   (Rgtb (normal src (i * 2 + 0)%nat + normal src (i * 2 + 1)%nat) 0)])
                   (seq 0 n_samples) = y env)
    by exact (f_equal (fun r => match r with Ok (_, b) => b | Raise _ => [] end) Ed).
  rewrite <- Ey. apply Forall_forall. intros r Hr.
  apply in_map_iff in Hr. destruct Hr as [i [<- _]].
  destruct (Rgtb _ 0); simpl; auto.
Qed.

(** X14: every number a run prints is in the range of its kind: each
    printed loss lies between 0 and 100 (the loss clamps its logarithms at
    -100) and the printed accuracy between 0 and 1. *)
Theorem printed_values_in_range (src : RandomSource) :
  valid_source src ->
  exists env, notebook src = Ok env /\ Forall line_in_range (console env).
Proof.
  intros Hsrc.
  destruct (setup_ok src) as (env0 & E0 & Hwf0 & _ & _ & _ & _ & _ & C0).
  destruct (epochs_print_in_range src epochs 0 env0 Hwf0
              (generated_labels_binary src env0 E0))
    as (env1 & ls & E1 & Hwf1 & C1 & F1).
  { intros e He. apply Hsrc. lia. }
  destruct (evaluate_ok env1 Hwf1) as (outputs & pred & acc & _ & E2 & _ & _ & Ea).
  eexists. split.
  - unfold notebook, train. rewrite E0, bind_ret, E1, bind_ret. exact E2.
  - simpl. rewrite C1, C0. simpl. apply Forall_app. split; [assumption|].
    constructor; [|constructor]. simpl.
    pose proof (matches_bound pred (y env1)) as Hk.
    destruct Hwf1 as ([_ [Ly _]] & _). rewrite Ly in Hk. unfold n_samples in Hk.
    apply le_INR in Hk. replace (INR 100) with 100 in Hk by (simpl; lra).
    pose proof (pos_INR (matches pred (y env1))). rewrite Ea. lra.
Qed.

Lemma printed_values_in_range_witness :
  exists env, notebook plain_source = Ok env /\ Forall line_in_range (console env).
Proof. apply printed_values_in_range. apply plain_source_valid. Defined.
